(** * TouchSensor: the touch-to-drag gesture state machine

    A shallow embedding of [src/Draggable/Sensors/TouchSensor/TouchSensor.js].

    The sensor's handlers are JavaScript methods that mutate the sensor
    instance, the listener tables of the document and of elements, the
    host's timer table and the event object they are handed, and that may
    throw a [TypeError].  They are embedded as computations in a small
    state-and-exception monad [Js] over a [World] record holding all of
    that state.  The host's event loop is a step function over [Action]s:
    the host invokes the callbacks registered for an event on a node, fires
    a pending timer, or changes the page under the sensor. *)

From stdpp Require Import base decidable countable gmap list.
From Stdlib Require Import ZArith.

Local Open Scope Z_scope.

(** ** The DOM as the sensor sees it *)

(** Elements are identified by a number; two references are the same
    element exactly when the numbers are equal. *)
Definition element := nat.

(** An event target on which the sensor registers listeners: the global
    [document], or an element. *)
Inductive node :=
  | document
  | Elem (e : element).

(** The native event types the file names in [addEventListener] calls. *)
Inductive EventType :=
  | touchstart | touchmove | touchend | touchcancel | scroll | contextmenu.

(** The callbacks the file registers: the four bound methods that are used
    as listeners, and the module-level function [onContextMenu].  The
    constructor binds each method once, so each has one identity for
    [addEventListener] and [removeEventListener]. *)
Inductive Callback :=
  | cb_onTouchStart | cb_onTouchMove | cb_onTouchEnd | cb_onScroll
  | cb_onContextMenu.

#[global] Instance node_eq_dec : EqDecision node.
Proof. solve_decision. Defined.
#[global] Instance EventType_eq_dec : EqDecision EventType.
Proof. solve_decision. Defined.
#[global] Instance Callback_eq_dec : EqDecision Callback.
Proof. solve_decision. Defined.

#[global] Instance node_countable : Countable node.
Proof.
  refine (inj_countable'
            (λ n, match n with document => None | Elem e => Some e end)
            (λ o, match o with None => document | Some e => Elem e end) _).
  by intros [].
Defined.

#[global] Instance EventType_countable : Countable EventType.
Proof.
  refine (inj_countable'
            (λ t, match t with
                  | touchstart => 0%nat | touchmove => 1%nat
                  | touchend => 2%nat | touchcancel => 3%nat
                  | scroll => 4%nat | contextmenu => 5%nat
                  end)
            (λ k, match k with
                  | 0%nat => touchstart | 1%nat => touchmove
                  | 2%nat => touchend | 3%nat => touchcancel
                  | 4%nat => scroll | _ => contextmenu
                  end) _).
  by intros [].
Defined.

#[global] Instance Callback_countable : Countable Callback.
Proof.
  refine (inj_countable'
            (λ c, match c with
                  | cb_onTouchStart => 0%nat | cb_onTouchMove => 1%nat
                  | cb_onTouchEnd => 2%nat | cb_onScroll => 3%nat
                  | cb_onContextMenu => 4%nat
                  end)
            (λ k, match k with
                  | 0%nat => cb_onTouchStart | 1%nat => cb_onTouchMove
                  | 2%nat => cb_onTouchEnd | 3%nat => cb_onScroll
                  | _ => cb_onContextMenu
                  end) _).
  by intros [].
Defined.

(** One registration: [n.addEventListener(ty, cb)].  All registrations of
    the file use the bubbling phase, so the capture flag is not part of the
    key; adding a registration twice leaves one, as in the DOM. *)
Definition Listener : Type := node * EventType * Callback.

(** A touch point.  [pageX] and [pageY] are JavaScript numbers; the
    handlers only copy them and subtract the window's scroll offset, and
    they are modelled as integers (CSS pixels). *)
Record Touch := { pageX : Z; pageY : Z }.

(** A native event object.  [ev_id] is the object's identity (the flags
    set by [preventDefault] and [stopPropagation] are kept per identity in
    the world).  [currentTarget] is set by the host to the node whose
    listener is being invoked.  The two touch lists are those of a
    [TouchEvent]; scroll and context-menu events leave them empty. *)
Record Event := {
  ev_id : nat;
  target : element;
  currentTarget : option node;
  touches : list Touch;
  changedTouches : list Touch
}.

(** ** The drag events of [SensorEvent]

    The three event classes are imported by the file; they are value
    objects built from the five fields the file passes. *)
Module SensorEvent.
Record data := {
  clientX : Z;
  clientY : Z;
  target : option element;
  container : option element;
  originalEvent : Event
}.

Inductive t :=
  | DragStartSensorEvent (d : data)
  | DragMoveSensorEvent (d : data)
  | DragStopSensorEvent (d : data).

Definition fields (e : t) : data :=
  match e with
  | DragStartSensorEvent d | DragMoveSensorEvent d | DragStopSensorEvent d => d
  end.

Definition is_start (e : t) : bool :=
  match e with DragStartSensorEvent _ => true | _ => false end.
Definition is_move (e : t) : bool :=
  match e with DragMoveSensorEvent _ => true | _ => false end.
Definition is_stop (e : t) : bool :=
  match e with DragStopSensorEvent _ => true | _ => false end.
End SensorEvent.

(** The second argument of the imported [closest] utility: a list of
    candidate elements, or a predicate on elements. *)
Inductive Selector :=
  | by_list (candidates : list element)
  | by_predicate (p : element → bool).

(** ** State *)

(** The fields of a [TouchSensor] instance.  [containers] and [options]
    come from the base class.  [dragging] is only ever tested for
    truthiness, so the initial [undefined] and [false] are one value;
    [tapTimeout] is [None] until the first timer is armed. *)
Record TouchSensor := {
  containers : list element;
  options_delay : Z;
  currentContainer : option element;
  currentScrollableParent : option element;
  dragging : bool;
  tapTimeout : option nat
}.

(** What the page provides and the sensor only reads: the imported
    [closest] utility (which walks the current DOM tree), the layout
    heights of elements, [document.elementFromPoint], the window's scroll
    offset, and the decision of the drag-event subscribers: [cancels c e]
    tells whether some listener bound to [c] cancels the drag event [e]. *)
Record Host := {
  closest : element → Selector → option element;
  offsetHeight : element → Z;
  scrollHeight : element → Z;
  elementFromPoint : Z → Z → option element;
  scrollX : Z;
  scrollY : Z;
  cancels : option element → SensorEvent.t → bool
}.

(** A pending timer.  The only callback the file hands to [setTimeout] is
    the closure returned by [onTouchHold(event, container)], so a timer is
    the pair it captured, with the delay it was armed for. *)
Record Timeout := {
  timeout_event : Event;
  timeout_container : element;
  timeout_delay : Z
}.

Record World := {
  sensor : TouchSensor;
  host : Host;
  listeners : gset Listener;
  timers : gmap nat Timeout;
  next_timer : nat;
  defaultPrevented : gset nat;
  propagationStopped : gset nat;
  triggered : list (option element * SensorEvent.t)
}.

Definition with_sensor (f : TouchSensor → TouchSensor) (w : World) : World :=
  {| sensor := f (sensor w); host := host w; listeners := listeners w;
     timers := timers w; next_timer := next_timer w;
     defaultPrevented := defaultPrevented w;
     propagationStopped := propagationStopped w; triggered := triggered w |}.

Definition with_host (h : Host) (w : World) : World :=
  {| sensor := sensor w; host := h; listeners := listeners w;
     timers := timers w; next_timer := next_timer w;
     defaultPrevented := defaultPrevented w;
     propagationStopped := propagationStopped w; triggered := triggered w |}.

Definition with_listeners (f : gset Listener → gset Listener) (w : World) : World :=
  {| sensor := sensor w; host := host w; listeners := f (listeners w);
     timers := timers w; next_timer := next_timer w;
     defaultPrevented := defaultPrevented w;
     propagationStopped := propagationStopped w; triggered := triggered w |}.

Definition with_timers (f : gmap nat Timeout → gmap nat Timeout) (w : World) : World :=
  {| sensor := sensor w; host := host w; listeners := listeners w;
     timers := f (timers w); next_timer := next_timer w;
     defaultPrevented := defaultPrevented w;
     propagationStopped := propagationStopped w; triggered := triggered w |}.

(** ** The monad of handler bodies *)

Inductive TypeError :=
  | touch_is_undefined       (* reading [pageX] of an undefined [touch] *)
  | currentTarget_is_null.   (* calling a method of a null [currentTarget] *)

Inductive Completion (A : Type) :=
  | Normal (a : A)
  | Throw (e : TypeError).
Arguments Normal {A} a.
Arguments Throw {A} e.

(** A statement runs in a world and completes normally or throws; the
    effects made before a throw stay. *)
Definition Js (A : Type) : Type := World → Completion A * World.

#[global] Instance Js_ret : MRet Js := λ A a w, (Normal a, w).
#[global] Instance Js_bind : MBind Js := λ A B f m w,
  match m w with
  | (Normal a, w') => f a w'
  | (Throw e, w') => (Throw e, w')
  end.

Definition completion {A} (m : Js A) (w : World) : Completion A := fst (m w).
Definition exec {A} (m : Js A) (w : World) : World := snd (m w).

(** *** Primitive statements *)

Definition this : Js TouchSensor := λ w, (Normal (sensor w), w).
Definition the_host : Js Host := λ w, (Normal (host w), w).
Definition throw {A} (e : TypeError) : Js A := λ w, (Throw e, w).

Definition set_currentContainer (v : option element) : Js unit := λ w,
  (Normal (), with_sensor (λ s,
     {| containers := containers s; options_delay := options_delay s;
        currentContainer := v;
        currentScrollableParent := currentScrollableParent s;
        dragging := dragging s; tapTimeout := tapTimeout s |}) w).

Definition set_currentScrollableParent (v : option element) : Js unit := λ w,
  (Normal (), with_sensor (λ s,
     {| containers := containers s; options_delay := options_delay s;
        currentContainer := currentContainer s;
        currentScrollableParent := v;
        dragging := dragging s; tapTimeout := tapTimeout s |}) w).

Definition set_dragging (v : bool) : Js unit := λ w,
  (Normal (), with_sensor (λ s,
     {| containers := containers s; options_delay := options_delay s;
        currentContainer := currentContainer s;
        currentScrollableParent := currentScrollableParent s;
        dragging := v; tapTimeout := tapTimeout s |}) w).

Definition set_tapTimeout (v : option nat) : Js unit := λ w,
  (Normal (), with_sensor (λ s,
     {| containers := containers s; options_delay := options_delay s;
        currentContainer := currentContainer s;
        currentScrollableParent := currentScrollableParent s;
        dragging := dragging s; tapTimeout := v |}) w).

Definition addEventListener (n : node) (ty : EventType) (cb : Callback) : Js unit :=
  λ w, (Normal (), with_listeners (λ l, l ∪ {[ (n, ty, cb) ]}) w).

Definition removeEventListener (n : node) (ty : EventType) (cb : Callback) : Js unit :=
  λ w, (Normal (), with_listeners (λ l, l ∖ {[ (n, ty, cb) ]}) w).

(** [setTimeout] hands out a fresh handle and records the timer. *)
Definition setTimeout (t : Timeout) : Js nat := λ w,
  (Normal (next_timer w),
   {| sensor := sensor w; host := host w; listeners := listeners w;
      timers := <[ next_timer w := t ]> (timers w);
      next_timer := S (next_timer w);
      defaultPrevented := defaultPrevented w;
      propagationStopped := propagationStopped w; triggered := triggered w |}).

(** [clearTimeout(undefined)] does nothing, as does clearing a handle whose
    timer already fired. *)
Definition clearTimeout (h : option nat) : Js unit := λ w,
  (Normal (),
   match h with
   | Some id => with_timers (delete id) w
   | None => w
   end).

Definition preventDefault (event : Event) : Js unit := λ w,
  (Normal (),
   {| sensor := sensor w; host := host w; listeners := listeners w;
      timers := timers w; next_timer := next_timer w;
      defaultPrevented := defaultPrevented w ∪ {[ ev_id event ]};
      propagationStopped := propagationStopped w; triggered := triggered w |}).

Definition stopPropagation (event : Event) : Js unit := λ w,
  (Normal (),
   {| sensor := sensor w; host := host w; listeners := listeners w;
      timers := timers w; next_timer := next_timer w;
      defaultPrevented := defaultPrevented w;
      propagationStopped := propagationStopped w ∪ {[ ev_id event ]};
      triggered := triggered w |}).

(** Modelled from the spec: [trigger] of the base class [Sensor], which is
    not part of the file.  The spec has it dispatch the event object to the
    listeners scoped to the container, the effect of a listener cancelling
    being read back through the event's canceled flag.  Here the call is
    recorded in [triggered], and the value returned is what
    [sensorEvent.canceled()] answers afterwards. *)
Definition trigger (container : option element) (e : SensorEvent.t) : Js bool := λ w,
  (Normal (cancels (host w) container e),
   {| sensor := sensor w; host := host w; listeners := listeners w;
      timers := timers w; next_timer := next_timer w;
      defaultPrevented := defaultPrevented w;
      propagationStopped := propagationStopped w;
      triggered := triggered w ++ [(container, e)] |}).

(** [event.touches[0] || event.changedTouches[0]]: the first active touch
    point, else the first changed one, else [undefined]. *)
Definition first_touch (event : Event) : option Touch :=
  match touches event with
  | t :: _ => Some t
  | [] => head (changedTouches event)
  end.

(** A property read on [touch]: a [TypeError] when it is [undefined]. *)
Definition deref (touch : option Touch) : Js Touch :=
  match touch with
  | Some t => mret t
  | None => throw touch_is_undefined
  end.

(** ** The methods of [TouchSensor] *)

(** The instance the constructor builds.  [currentContainer] and
    [dragging] are not assigned by the file's constructor; they start
    empty and falsy. *)
Definition new_TouchSensor (containers : list element) (delay : Z) : TouchSensor :=
  {| containers := containers; options_delay := delay;
     currentContainer := None; currentScrollableParent := None;
     dragging := false; tapTimeout := None |}.

Definition attach : Js unit :=
  addEventListener document touchstart cb_onTouchStart.

Definition detach : Js unit :=
  removeEventListener document touchstart cb_onTouchStart.

Definition onScroll : Js unit :=
  s ← this;
  clearTimeout (tapTimeout s).

Definition onTouchStart (event : Event) : Js unit :=
  s ← this;
  h ← the_host;
  match closest h (target event) (by_list (containers s)) with
  | None => mret ()
  | Some container =>
      preventDefault event;;
      addEventListener document scroll cb_onScroll;;
      addEventListener (Elem container) contextmenu cb_onContextMenu;;
      set_currentContainer (Some container);;
      set_currentScrollableParent
        (closest h container
           (by_predicate (λ element, offsetHeight h element <? scrollHeight h element)));;
      s ← this;
      match currentScrollableParent s with
      | Some parent => addEventListener (Elem parent) scroll cb_onScroll
      | None => mret ()
      end;;
      s ← this;
      id ← setTimeout {| timeout_event := event; timeout_container := container;
                         timeout_delay := options_delay s |};
      set_tapTimeout (Some id)
  end.

(** The closure returned by [onTouchHold(event, container)], run when the
    timer fires. *)
Definition onTouchHold (event : Event) (container : element) : Js unit :=
  let touch := first_touch event in
  let target := target event in
  touch ← deref touch;
  let dragStartEvent := SensorEvent.DragStartSensorEvent
    {| SensorEvent.clientX := pageX touch;
       SensorEvent.clientY := pageY touch;
       SensorEvent.target := Some target;
       SensorEvent.container := Some container;
       SensorEvent.originalEvent := event |} in
  canceled ← trigger (Some container) dragStartEvent;
  set_currentContainer (Some container);;
  set_dragging (negb canceled);;
  s ← this;
  if dragging s then
    addEventListener document touchend cb_onTouchEnd;;
    addEventListener document touchcancel cb_onTouchEnd;;
    addEventListener document touchmove cb_onTouchMove
  else mret ().

Definition onTouchMove (event : Event) : Js unit :=
  s ← this;
  if negb (dragging s) then mret () else
  stopPropagation event;;
  preventDefault event;;
  let touch := first_touch event in
  touch ← deref touch;
  h ← the_host;
  let target := elementFromPoint h (pageX touch - scrollX h) (pageY touch - scrollY h) in
  s ← this;
  let dragMoveEvent := SensorEvent.DragMoveSensorEvent
    {| SensorEvent.clientX := pageX touch;
       SensorEvent.clientY := pageY touch;
       SensorEvent.target := target;
       SensorEvent.container := currentContainer s;
       SensorEvent.originalEvent := event |} in
  trigger (currentContainer s) dragMoveEvent;;
  mret ().

Definition onTouchEnd (event : Event) : Js unit :=
  s ← this;
  if negb (dragging s) then mret () else
  let container := currentTarget event in
  removeEventListener document scroll cb_onScroll;;
  match container with
  | Some container => removeEventListener container contextmenu cb_onContextMenu
  | None => throw currentTarget_is_null
  end;;
  s ← this;
  match currentScrollableParent s with
  | Some parent => removeEventListener (Elem parent) scroll cb_onScroll
  | None => mret ()
  end;;
  s ← this;
  clearTimeout (tapTimeout s);;
  s ← this;
  if negb (dragging s) then mret () else
  let touch := first_touch event in
  preventDefault event;;
  touch ← deref touch;
  s ← this;
  let dragStopEvent := SensorEvent.DragStopSensorEvent
    {| SensorEvent.clientX := pageX touch;
       SensorEvent.clientY := pageY touch;
       SensorEvent.target := None;
       SensorEvent.container := currentContainer s;
       SensorEvent.originalEvent := event |} in
  trigger (currentContainer s) dragStopEvent;;
  removeEventListener document touchend cb_onTouchEnd;;
  removeEventListener document touchcancel cb_onTouchEnd;;
  removeEventListener document touchmove cb_onTouchMove;;
  set_currentContainer None;;
  set_dragging false.

Definition onContextMenu (event : Event) : Js unit :=
  preventDefault event.

(** ** The host's event loop *)

Definition call (cb : Callback) (event : Event) : Js unit :=
  match cb with
  | cb_onTouchStart => onTouchStart event
  | cb_onTouchMove => onTouchMove event
  | cb_onTouchEnd => onTouchEnd event
  | cb_onScroll => onScroll
  | cb_onContextMenu => onContextMenu event
  end.

(** The event as the callback sees it when the host invokes a listener of
    node [n]: [currentTarget] is [n]. *)
Definition at_node (n : node) (event : Event) : Event :=
  {| ev_id := ev_id event; target := target event; currentTarget := Some n;
     touches := touches event; changedTouches := changedTouches event |}.

(** The host invokes [cb] for an event of type [ty] on node [n] when it is
    registered there at that moment.  An exception of a listener is
    reported by the host and does not undo what the listener did. *)
Definition invoke (n : node) (ty : EventType) (event : Event) (w : World)
    (cb : Callback) : World :=
  if decide ((n, ty, cb) ∈ listeners w) then exec (call cb (at_node n event)) w
  else w.

Definition callbacks : list Callback :=
  [cb_onTouchStart; cb_onTouchMove; cb_onTouchEnd; cb_onScroll; cb_onContextMenu].

(** An event of type [ty] reaches node [n]: every callback registered on
    [n] for [ty] is invoked. *)
Definition dispatchEvent (n : node) (ty : EventType) (event : Event) (w : World) : World :=
  foldl (invoke n ty event) w callbacks.

(** A pending timer fires: it leaves the table and its closure runs.  A
    handle that is not pending (never armed, cleared, or already fired)
    cannot fire. *)
Definition fire (id : nat) (w : World) : World :=
  match timers w !! id with
  | Some t =>
      exec (onTouchHold (timeout_event t) (timeout_container t))
           (with_timers (delete id) w)
  | None => w
  end.

Inductive Action :=
  | Dispatch (n : node) (ty : EventType) (event : Event)
  | Fire (id : nat)
  | Page (h : Host)        (* the page scrolls, is laid out anew, or the
                              drag-event subscribers change *)
  | Attach
  | Detach.

Definition step (w : World) (a : Action) : World :=
  match a with
  | Dispatch n ty event => dispatchEvent n ty event w
  | Fire id => fire id w
  | Page h => with_host h w
  | Attach => exec attach w
  | Detach => exec detach w
  end.

Definition run (w : World) (l : list Action) : World := foldl step w l.

(** The world in which a sensor has just been constructed on a page. *)
Definition initial (s : TouchSensor) (h : Host) : World :=
  {| sensor := s; host := h; listeners := ∅; timers := ∅; next_timer := 1%nat;
     defaultPrevented := ∅; propagationStopped := ∅; triggered := [] |}.

(** ** Vocabulary of the statements *)

(** The drag events the three handlers build from a touch point. *)
Definition dragStartEvent (event : Event) (container : element) (touch : Touch)
    : SensorEvent.t :=
  SensorEvent.DragStartSensorEvent
    {| SensorEvent.clientX := pageX touch;
       SensorEvent.clientY := pageY touch;
       SensorEvent.target := Some (target event);
       SensorEvent.container := Some container;
       SensorEvent.originalEvent := event |}.

Definition dragMoveEvent (h : Host) (container : option element) (event : Event)
    (touch : Touch) : SensorEvent.t :=
  SensorEvent.DragMoveSensorEvent
    {| SensorEvent.clientX := pageX touch;
       SensorEvent.clientY := pageY touch;
       SensorEvent.target :=
         elementFromPoint h (pageX touch - scrollX h) (pageY touch - scrollY h);
       SensorEvent.container := container;
       SensorEvent.originalEvent := event |}.

Definition dragStopEvent (container : option element) (event : Event)
    (touch : Touch) : SensorEvent.t :=
  SensorEvent.DragStopSensorEvent
    {| SensorEvent.clientX := pageX touch;
       SensorEvent.clientY := pageY touch;
       SensorEvent.target := None;
       SensorEvent.container := container;
       SensorEvent.originalEvent := event |}.

(** The drag events triggered on the way from world [w] to a later world
    [w']: what [w'] has recorded beyond [w]. *)
Definition triggered_since (w w' : World) : list (option element * SensorEvent.t) :=
  drop (length (triggered w)) (triggered w').

(** The one callback the file registers under each event type. *)
Definition handler_for (ty : EventType) : Callback :=
  match ty with
  | touchstart => cb_onTouchStart
  | touchmove => cb_onTouchMove
  | touchend | touchcancel => cb_onTouchEnd
  | scroll => cb_onScroll
  | contextmenu => cb_onContextMenu
  end.

(** Every registration pairs an event type with the callback the file
    registers for it.  This holds of the empty table and is kept by every
    [addEventListener] call of the file. *)
Definition listeners_ok (w : World) : Prop :=
  set_Forall (λ l : Listener, l.2 = handler_for l.1.2) (listeners w).

#[global] Instance listeners_ok_dec w : Decision (listeners_ok w).
Proof. unfold listeners_ok. apply _. Defined.

Definition is_end (ty : EventType) : bool :=
  match ty with touchend | touchcancel => true | _ => false end.

(** Actions that cannot begin a drag: everything but a timer firing. *)
Definition no_fire (a : Action) : bool :=
  match a with Fire _ => false | _ => true end.

(** Actions that belong to the gesture the sensor is tracking: no timer
    fires and no further touch-start is processed. *)
Definition same_gesture (a : Action) : bool :=
  match a with
  | Fire _ | Dispatch _ touchstart _ => false
  | _ => true
  end.

(** Actions during a drag before its end: as [same_gesture], and no
    touch-end or touch-cancel either. *)
Definition before_end (a : Action) : bool :=
  match a with
  | Fire _ | Dispatch _ touchstart _ | Dispatch _ touchend _
  | Dispatch _ touchcancel _ => false
  | _ => true
  end.

(** The action does not hand the event object with identity [eid] to the
    sensor (again). *)
Definition other_event (eid : nat) (a : Action) : Prop :=
  match a with
  | Dispatch _ _ event => ev_id event ≠ eid
  | _ => True
  end.

(** No pending timer has captured the event object with identity [eid]. *)
Definition not_captured (eid : nat) (w : World) : Prop :=
  map_Forall (λ _ t, ev_id (timeout_event t) ≠ eid) (timers w).

(** [touch] is the point the handlers read from [event]: the first active
    touch, or, when there is no active touch, the first changed one. *)
Definition touch_point_of (event : Event) (touch : Touch) : Prop :=
  (∃ rest, touches event = touch :: rest) ∨
  (touches event = [] ∧ ∃ rest, changedTouches event = touch :: rest).

(** At least one touch point is present in the event. *)
Definition has_touch_point (event : Event) : bool :=
  match touches event, changedTouches event with
  | [], [] => false
  | _, _ => true
  end.

(** [w'] has recorded the drag events of [w] and after them only events
    that satisfy [P]. *)
Definition extends (P : option element * SensorEvent.t → Prop) (w w' : World) : Prop :=
  ∃ new, triggered w' = triggered w ++ new ∧ Forall P new.

(** A drag event built by [onTouchMove] or [onTouchEnd] from the event
    [event] on page [h]. *)
Definition from_touch_handler (h : Host) (event : Event)
    (ce : option element * SensorEvent.t) : Prop :=
  ∃ touch, first_touch event = Some touch ∧
    (ce.2 = dragMoveEvent h ce.1 event touch ∨
     ce.2 = dragStopEvent ce.1 event touch).

(** A start event built by the closure of a timer pending in [w]. *)
Definition from_timer (w : World) (id : nat)
    (ce : option element * SensorEvent.t) : Prop :=
  ∃ t touch, timers w !! id = Some t ∧
    first_touch (timeout_event t) = Some touch ∧
    ce = (Some (timeout_container t),
          dragStartEvent (timeout_event t) (timeout_container t) touch).

(** The reading of the fault condition in the spec's words, "if either
    touch list is empty", at the end of a gesture. *)
Definition fault_if_either_touch_list_is_empty : Prop :=
  ∀ w n event,
    dragging (sensor w) = true →
    touches event = [] ∨ changedTouches event = [] →
    completion (onTouchEnd (at_node n event)) w = Throw touch_is_undefined.


(** The start event of the gesture begun by the touch-start event object
    with identity [eid]: a start event whose original event is that
    object. *)
Definition start_of (eid : nat) (ce : option element * SensorEvent.t) : Prop :=
  SensorEvent.is_start ce.2 = true ∧
  ev_id (SensorEvent.originalEvent (SensorEvent.fields ce.2)) = eid.

(** The sensor tracks the gesture whose long-press timer is [t] under
    handle [id], with [parent] the scrollable ancestor recorded for it: the
    handle is the sensor's, and as long as the timer is pending the
    container and the parent are the recorded ones and the listeners added
    at touch-start are registered. *)
Definition tracked (id : nat) (t : Timeout) (parent : option element) (w : World) : Prop :=
  tapTimeout (sensor w) = Some id ∧
  (timers w !! id = None ∨
   (timers w !! id = Some t ∧
    currentContainer (sensor w) = Some (timeout_container t) ∧
    currentScrollableParent (sensor w) = parent ∧
    (document, scroll, cb_onScroll) ∈ listeners w ∧
    (Elem (timeout_container t), contextmenu, cb_onContextMenu) ∈ listeners w ∧
    (∀ p, parent = Some p → (Elem p, scroll, cb_onScroll) ∈ listeners w))).

(** ** A sample page

    Element 2 lies in element 1, which lies in element 3; element 9 stands
    alone.  Element 1 is the registered container and element 3 is taller
    inside than outside, so it scrolls.  The window is scrolled down by 40
    pixels. *)
Module Sample.
Definition ancestors (e : element) : list element :=
  match e with
  | 2%nat => [2; 1; 3]%nat
  | 1%nat => [1; 3]%nat
  | _ => [e]
  end.

Definition matches (s : Selector) (e : element) : bool :=
  match s with
  | by_list candidates => bool_decide (e ∈ candidates)
  | by_predicate p => p e
  end.

Definition page (cancel_start : bool) : Host :=
  {| closest := λ e s, head (filter (λ x, matches s x = true) (ancestors e));
     offsetHeight := λ _, 100;
     scrollHeight := λ e, if decide (e = 3%nat) then 500 else 100;
     elementFromPoint := λ x y, if decide (y < 50) then Some 2%nat else Some 9%nat;
     scrollX := 0;
     scrollY := 40;
     cancels := λ _ e, cancel_start && SensorEvent.is_start e |}.

Definition point (x y : Z) : Touch := {| pageX := x; pageY := y |}.

(** A finger goes down on element 2 at (10, 10). *)
Definition ev_start : Event :=
  {| ev_id := 1; target := 2%nat; currentTarget := None;
     touches := [point 10 10]; changedTouches := [point 10 10] |}.
(** It moves to (20, 30). *)
Definition ev_move : Event :=
  {| ev_id := 2; target := 2%nat; currentTarget := None;
     touches := [point 20 30]; changedTouches := [point 20 30] |}.
(** It is lifted: no touch is active any more. *)
Definition ev_end : Event :=
  {| ev_id := 3; target := 2%nat; currentTarget := None;
     touches := []; changedTouches := [point 20 30] |}.
(** A scroll event, and a touch event without any touch point. *)
Definition ev_scroll : Event :=
  {| ev_id := 4; target := 3%nat; currentTarget := None;
     touches := []; changedTouches := [] |}.
Definition ev_empty : Event :=
  {| ev_id := 5; target := 2%nat; currentTarget := None;
     touches := []; changedTouches := [] |}.
(** A finger goes down on element 9, outside every container. *)
Definition ev_outside : Event :=
  {| ev_id := 6; target := 9%nat; currentTarget := None;
     touches := [point 5 5]; changedTouches := [point 5 5] |}.

(** The sensor attached, then the touch-start processed (the long press
    is pending under handle 1), then the timer fired. *)
Definition attached (cancel_start : bool) : World :=
  exec attach (initial (new_TouchSensor [1%nat] 100) (page cancel_start)).
Definition pending (cancel_start : bool) : World :=
  dispatchEvent document touchstart ev_start (attached cancel_start).
Definition held (cancel_start : bool) : World :=
  fire 1 (pending cancel_start).
End Sample.

(** ** Vocabulary of the further properties *)

(** The world of a sensor that the constructor has just built on page
    [h], before [attach]. *)
Definition constructed (containers : list element) (delay : Z) (h : Host) : World :=
  initial (new_TouchSensor containers delay) h.

(** Timer handles are handed out in increasing order: every pending
    handle is below the next one. *)
Definition handles_fresh (w : World) : Prop :=
  map_Forall (λ id _, (id < next_timer w)%nat) (timers w).

(** While dragging, a container is recorded and the three listeners of
    the drag are on the document. *)
Definition drag_ready (w : World) : Prop :=
  dragging (sensor w) = true →
  is_Some (currentContainer (sensor w)) ∧
  (document, touchend, cb_onTouchEnd) ∈ listeners w ∧
  (document, touchcancel, cb_onTouchEnd) ∈ listeners w ∧
  (document, touchmove, cb_onTouchMove) ∈ listeners w.

(** Reading a sequence of drag events as a subscriber does: a start event
    opens a drag; move and stop events are only in order inside an open
    drag, and a stop event closes it. *)
Inductive Phase := Closed | Open.

Definition advance (p : option Phase) (ce : option element * SensorEvent.t)
    : option Phase :=
  match p, ce.2 with
  | Some _, SensorEvent.DragStartSensorEvent _ => Some Open
  | Some Open, SensorEvent.DragMoveSensorEvent _ => Some Open
  | Some Open, SensorEvent.DragStopSensorEvent _ => Some Closed
  | _, _ => None
  end.

Definition trace_phase (l : list (option element * SensorEvent.t)) : option Phase :=
  foldl advance (Some Closed) l.

(** The drag event names as its container the element it is triggered
    on, and that element is not null. *)
Definition on_its_container (ce : option element * SensorEvent.t) : Prop :=
  is_Some ce.1 ∧ SensorEvent.container (SensorEvent.fields ce.2) = ce.1.

(** Callbacks of the drag listen on the document only. *)
Definition drag_listeners_on_document (w : World) : Prop :=
  ∀ n ty, (n, ty, cb_onTouchEnd) ∈ listeners w → n = document.

(** When the sensor suppresses the default action of an event of type
    [ty] that it handles in world [w]. *)
Definition suppresses (w : World) (ty : EventType) (event : Event) : Prop :=
  match ty with
  | touchstart =>
      is_Some (closest (host w) (target event) (by_list (containers (sensor w))))
  | touchmove | touchend | touchcancel => dragging (sensor w) = true
  | scroll => False
  | contextmenu => True
  end.

(** Actions that do not involve the registration of [onTouchStart]:
    neither [attach] nor a touch-start being delivered. *)
Definition apart_from_touchstart (a : Action) : bool :=
  match a with
  | Attach | Dispatch _ touchstart _ => false
  | _ => true
  end.

(** What every world reached from a constructed sensor satisfies: the
    sensor is ready to end a drag while dragging, the drag events recorded
    so far are in order, with the drag open while dragging, and each was
    triggered on the container it names. *)
Definition sound (w : World) : Prop :=
  drag_ready w ∧
  (∃ p, trace_phase (triggered w) = Some p ∧
        (dragging (sensor w) = true → p = Open)) ∧
  Forall on_its_container (triggered w).

(** The sample page with elements 1 and 9 both registered as containers,
    and a long press pending on container 1. *)
Module TwoContainers.
Definition attached : World :=
  exec attach (initial (new_TouchSensor [1; 9]%nat 100) (Sample.page false)).
Definition pending : World :=
  dispatchEvent document touchstart Sample.ev_start attached.
End TwoContainers.

(** ** Vocabulary of the gesture statements, without the single-gesture
    assumption *)

(** Actions before the timer [id] of a gesture fires: any timer but [id]
    may fire, and the touch-start event object with identity [eid] is not
    handed to the sensor a second time. *)
Definition before_firing (id eid : nat) (a : Action) : Prop :=
  match a with
  | Fire k => k ≠ id
  | Dispatch _ _ event => ev_id event ≠ eid
  | _ => True
  end.


(** What the sensor keeps for the timer [id] of the gesture with
    touch-start [eid], as long as its handle names that timer: handles
    grow, so the handle never comes back to [id] once overwritten; while
    it is [id] and the timer is pending the scroll listeners of the
    gesture are registered and the recorded scrollable parent is
    [parent]; and no other pending timer captured the event [eid]. *)
Definition armed (id eid : nat) (parent : option element) (w : World) : Prop :=
  listeners_ok w ∧
  (id < next_timer w)%nat ∧
  (tapTimeout (sensor w) = Some id →
   timers w !! id = None ∨
   (currentScrollableParent (sensor w) = parent ∧
    (document, scroll, cb_onScroll) ∈ listeners w ∧
    (∀ p, parent = Some p → (Elem p, scroll, cb_onScroll) ∈ listeners w))) ∧
  (∀ id' t', timers w !! id' = Some t' →
             id' = id ∨ ev_id (timeout_event t') ≠ eid).

(** C5 as the claim words it: for every pending gesture, whatever else
    happens before the scroll short of the gesture's own timer firing. *)
Definition scroll_cancels_every_pending_gesture : Prop :=
  ∀ w0 event c mid n sev rest,
    listeners_ok w0 →
    (document, touchstart, cb_onTouchStart) ∈ listeners w0 →
    closest (host w0) (target event) (by_list (containers (sensor w0))) = Some c →
    not_captured (ev_id event) w0 →
    Forall (before_firing (next_timer w0) (ev_id event)) mid →
    Forall (other_event (ev_id event)) rest →
    let id := next_timer w0 in
    let w1 := dispatchEvent document touchstart event w0 in
    let w2 := run w1 mid in
    let w3 := dispatchEvent n scroll sev w2 in
    (n = document ∨
     ∃ p, currentScrollableParent (sensor w1) = Some p ∧ n = Elem p) →
    timers w3 !! id = None ∧
    Forall (λ ce, ¬ start_of (ev_id event) ce) (triggered_since w0 (run w3 rest)).




(** Actions that deliver no touch-end and no touch-cancel. *)
Definition no_end (a : Action) : bool :=
  match a with
  | Dispatch _ touchend _ | Dispatch _ touchcancel _ => false
  | _ => true
  end.

(** C1 as the claim words it: the stop event of a gesture goes to the
    container of that gesture, whatever happens between the start and the
    first touch-end or touch-cancel processed while dragging. *)
Definition stop_event_goes_to_the_container_of_the_gesture : Prop :=
  ∀ cs delay h acts id t touch0 mid ty event touch,
    let w := run (constructed cs delay h) acts in
    timers w !! id = Some t →
    first_touch (timeout_event t) = Some touch0 →
    cancels (host w) (Some (timeout_container t))
      (dragStartEvent (timeout_event t) (timeout_container t) touch0) = false →
    Forall (λ a, no_end a = true) mid →
    is_end ty = true →
    first_touch event = Some touch →
    let c := timeout_container t in
    let w2 := run (fire id w) mid in
    dragging (sensor w2) = true →
    triggered_since w2 (dispatchEvent document ty event w2) =
      [(Some c, dragStopEvent (Some c) (at_node document event) touch)].

(** A touch-move whose list of active touches is empty: its touch point is
    in the changed touches only.  On the sample page the point (30, 60) in
    page coordinates is (30, 20) in the window, over element 2. *)
Definition ev_changed_only : Event :=
  {| ev_id := 7; target := 2%nat; currentTarget := None;
     touches := []; changedTouches := [Sample.point 30 60] |}.

(** Every pending long-press timer of a sensor built with the containers
    [cs] and the delay [delay] on the page [h] was armed by a touch-start
    on a container: it holds the container [closest] finds for the target
    of the touch-start it captured, and the sensor's delay. *)
Definition timers_hold_their_container (cs : list element) (delay : Z) (h : Host)
    (w : World) : Prop :=
  map_Forall (λ _ t,
    closest h (target (timeout_event t)) (by_list cs) = Some (timeout_container t) ∧
    timeout_delay t = delay) (timers w).

(** Actions that leave the page as it is. *)
Definition no_page (a : Action) : bool :=
  match a with Page _ => false | _ => true end.

(** ** Proof support *)

Ltac js_unfold :=
  unfold completion, exec, call, attach, detach, onScroll, onTouchStart,
    onTouchHold, onTouchMove, onTouchEnd, onContextMenu, deref, trigger,
    setTimeout, clearTimeout, preventDefault, stopPropagation,
    addEventListener, removeEventListener, set_currentContainer,
    set_currentScrollableParent, set_dragging, set_tapTimeout, this,
    the_host, throw, with_sensor, with_listeners, with_timers, with_host,
    mbind, mret, Js_bind, Js_ret in *.

(** Open a world into its fields, so that handler bodies compute. *)
Ltac open_world w :=
  let s := fresh "s" in
  destruct w as [s ? ? ? ? ? ? ?]; destruct s as [? ? ? ? ? ?]; cbn in *.

Lemma listeners_ok_spec w :
  listeners_ok w ↔ ∀ n ty cb, (n, ty, cb) ∈ listeners w → cb = handler_for ty.
Proof.
  unfold listeners_ok, set_Forall. split.
  - intros H n ty cb Hin. exact (H _ Hin).
  - intros H [[n ty] cb] Hin. cbn. eauto.
Qed.

#[local] Set Warnings "-clear-no-such-hyp".

Ltac js_case :=
  match goal with
  | |- context [match ?x with _ => _ end] =>
      lazymatch x with
      | context [match _ with _ => _ end] => fail
      | _ => destruct x eqn:?
      end
  end.

Ltac js_run := js_unfold; cbn; repeat (js_case; cbn in * ).

(** *** What each callback does, case by case *)

Lemma first_touch_at_node n event : first_touch (at_node n event) = first_touch event.
Proof. reflexivity. Qed.

Lemma first_touch_None event :
  first_touch event = None ↔ touches event = [] ∧ changedTouches event = [].
Proof.
  unfold first_touch. destruct (touches event), (changedTouches event); cbn;
    naive_solver.
Qed.

Lemma onTouchStart_no_match event w :
  closest (host w) (target event) (by_list (containers (sensor w))) = None →
  onTouchStart event w = (Normal (), w).
Proof. intros H. open_world w. js_unfold. cbn. by rewrite H. Qed.

Lemma onTouchStart_match event c w :
  closest (host w) (target event) (by_list (containers (sensor w))) = Some c →
  let parent := closest (host w) c
    (by_predicate (λ element,
       offsetHeight (host w) element <? scrollHeight (host w) element)) in
  onTouchStart event w =
  (Normal (),
   {| sensor :=
        {| containers := containers (sensor w);
           options_delay := options_delay (sensor w);
           currentContainer := Some c;
           currentScrollableParent := parent;
           dragging := dragging (sensor w);
           tapTimeout := Some (next_timer w) |};
      host := host w;
      listeners :=
        match parent with
        | Some p =>
            listeners w ∪ {[ (document, scroll, cb_onScroll) ]}
              ∪ {[ (Elem c, contextmenu, cb_onContextMenu) ]}
              ∪ {[ (Elem p, scroll, cb_onScroll) ]}
        | None =>
            listeners w ∪ {[ (document, scroll, cb_onScroll) ]}
              ∪ {[ (Elem c, contextmenu, cb_onContextMenu) ]}
        end;
      timers :=
        <[ next_timer w :=
             {| timeout_event := event; timeout_container := c;
                timeout_delay := options_delay (sensor w) |} ]> (timers w);
      next_timer := S (next_timer w);
      defaultPrevented := defaultPrevented w ∪ {[ ev_id event ]};
      propagationStopped := propagationStopped w;
      triggered := triggered w |}).
Proof.
  intros H parent. subst parent. open_world w. js_unfold. cbn. rewrite H. cbn.
  by destruct (closest _ c _).
Qed.

Lemma onScroll_eq w :
  onScroll w =
  (Normal (),
   match tapTimeout (sensor w) with
   | Some id => with_timers (delete id) w
   | None => w
   end).
Proof. reflexivity. Qed.

Lemma onTouchHold_no_touch event c w :
  first_touch event = None →
  onTouchHold event c w = (Throw touch_is_undefined, w).
Proof. intros H. open_world w. js_unfold. cbn. by rewrite H. Qed.

Lemma onTouchHold_touch event c touch w :
  first_touch event = Some touch →
  let canceled := cancels (host w) (Some c) (dragStartEvent event c touch) in
  onTouchHold event c w =
  (Normal (),
   {| sensor :=
        {| containers := containers (sensor w);
           options_delay := options_delay (sensor w);
           currentContainer := Some c;
           currentScrollableParent := currentScrollableParent (sensor w);
           dragging := negb canceled;
           tapTimeout := tapTimeout (sensor w) |};
      host := host w;
      listeners :=
        if canceled then listeners w
        else listeners w ∪ {[ (document, touchend, cb_onTouchEnd) ]}
               ∪ {[ (document, touchcancel, cb_onTouchEnd) ]}
               ∪ {[ (document, touchmove, cb_onTouchMove) ]};
      timers := timers w;
      next_timer := next_timer w;
      defaultPrevented := defaultPrevented w;
      propagationStopped := propagationStopped w;
      triggered := triggered w ++ [(Some c, dragStartEvent event c touch)] |}).
Proof.
  intros H canceled. subst canceled. open_world w. js_unfold. cbn.
  rewrite H. cbn. unfold dragStartEvent. by destruct (cancels _ _ _).
Qed.

Lemma onTouchMove_idle event w :
  dragging (sensor w) = false → onTouchMove event w = (Normal (), w).
Proof. intros H. open_world w. by subst. Qed.

Lemma onTouchMove_no_touch event w :
  dragging (sensor w) = true → first_touch event = None →
  onTouchMove event w =
  (Throw touch_is_undefined,
   {| sensor := sensor w; host := host w; listeners := listeners w;
      timers := timers w; next_timer := next_timer w;
      defaultPrevented := defaultPrevented w ∪ {[ ev_id event ]};
      propagationStopped := propagationStopped w ∪ {[ ev_id event ]};
      triggered := triggered w |}).
Proof.
  intros Hd H. open_world w. subst. unfold onTouchMove. js_unfold. cbn.
  by rewrite H.
Qed.

Lemma onTouchMove_touch event touch w :
  dragging (sensor w) = true → first_touch event = Some touch →
  onTouchMove event w =
  (Normal (),
   {| sensor := sensor w; host := host w; listeners := listeners w;
      timers := timers w; next_timer := next_timer w;
      defaultPrevented := defaultPrevented w ∪ {[ ev_id event ]};
      propagationStopped := propagationStopped w ∪ {[ ev_id event ]};
      triggered :=
        triggered w ++
        [(currentContainer (sensor w),
          dragMoveEvent (host w) (currentContainer (sensor w)) event touch)] |}).
Proof.
  intros Hd H. open_world w. subst. unfold onTouchMove. js_unfold. cbn.
  by rewrite H.
Qed.

Lemma onTouchEnd_idle event w :
  dragging (sensor w) = false → onTouchEnd event w = (Normal (), w).
Proof. intros H. open_world w. by subst. Qed.

(** The listener table and the timer table after the clean-up that opens
    [onTouchEnd], for a listener invoked on node [n]. *)
Lemma onTouchEnd_no_touch event n w :
  dragging (sensor w) = true → currentTarget event = Some n →
  first_touch event = None →
  onTouchEnd event w =
  (Throw touch_is_undefined,
   {| sensor := sensor w; host := host w;
      listeners :=
        match currentScrollableParent (sensor w) with
        | Some p =>
            listeners w ∖ {[ (document, scroll, cb_onScroll) ]}
              ∖ {[ (n, contextmenu, cb_onContextMenu) ]}
              ∖ {[ (Elem p, scroll, cb_onScroll) ]}
        | None =>
            listeners w ∖ {[ (document, scroll, cb_onScroll) ]}
              ∖ {[ (n, contextmenu, cb_onContextMenu) ]}
        end;
      timers :=
        match tapTimeout (sensor w) with
        | Some id => delete id (timers w)
        | None => timers w
        end;
      next_timer := next_timer w;
      defaultPrevented := defaultPrevented w ∪ {[ ev_id event ]};
      propagationStopped := propagationStopped w;
      triggered := triggered w |}).
Proof.
  intros Hd Hn H. open_world w. js_unfold. cbn in *. subst. rewrite Hn. cbn.
  rewrite H. by repeat (js_case; cbn).
Qed.

Lemma onTouchEnd_touch event n touch w :
  dragging (sensor w) = true → currentTarget event = Some n →
  first_touch event = Some touch →
  onTouchEnd event w =
  (Normal (),
   {| sensor :=
        {| containers := containers (sensor w);
           options_delay := options_delay (sensor w);
           currentContainer := None;
           currentScrollableParent := currentScrollableParent (sensor w);
           dragging := false;
           tapTimeout := tapTimeout (sensor w) |};
      host := host w;
      listeners :=
        match currentScrollableParent (sensor w) with
        | Some p =>
            listeners w ∖ {[ (document, scroll, cb_onScroll) ]}
              ∖ {[ (n, contextmenu, cb_onContextMenu) ]}
              ∖ {[ (Elem p, scroll, cb_onScroll) ]}
              ∖ {[ (document, touchend, cb_onTouchEnd) ]}
              ∖ {[ (document, touchcancel, cb_onTouchEnd) ]}
              ∖ {[ (document, touchmove, cb_onTouchMove) ]}
        | None =>
            listeners w ∖ {[ (document, scroll, cb_onScroll) ]}
              ∖ {[ (n, contextmenu, cb_onContextMenu) ]}
              ∖ {[ (document, touchend, cb_onTouchEnd) ]}
              ∖ {[ (document, touchcancel, cb_onTouchEnd) ]}
              ∖ {[ (document, touchmove, cb_onTouchMove) ]}
        end;
      timers :=
        match tapTimeout (sensor w) with
        | Some id => delete id (timers w)
        | None => timers w
        end;
      next_timer := next_timer w;
      defaultPrevented := defaultPrevented w ∪ {[ ev_id event ]};
      propagationStopped := propagationStopped w;
      triggered :=
        triggered w ++
        [(currentContainer (sensor w),
          dragStopEvent (currentContainer (sensor w)) event touch)] |}).
Proof.
  intros Hd Hn H. open_world w. js_unfold. cbn in *. subst. rewrite Hn. cbn.
  rewrite H. by repeat (js_case; cbn).
Qed.

Lemma onTouchEnd_null_currentTarget event w :
  dragging (sensor w) = true → currentTarget event = None →
  completion (onTouchEnd event) w = Throw currentTarget_is_null.
Proof.
  intros Hd Hn. open_world w. subst. js_unfold. cbn. by rewrite Hn.
Qed.

(** Case analysis on a callback invoked by the host on node [n]: each
    case is rewritten with the matching equation above. *)
Ltac call_cases cb n event w :=
  let Hc := fresh "Hclosest" in
  let Hd := fresh "Hdragging" in
  let Ht := fresh "Htouch" in
  destruct cb; unfold exec, completion, call;
  [ destruct (closest (host w) (target event) (by_list (containers (sensor w))))
      eqn:Hc;
    [ rewrite (onTouchStart_match (at_node n event) _ w Hc)
    | rewrite (onTouchStart_no_match (at_node n event) w Hc) ]
  | destruct (dragging (sensor w)) eqn:Hd;
    [ destruct (first_touch event) eqn:Ht;
      [ rewrite (onTouchMove_touch (at_node n event) _ w Hd Ht)
      | rewrite (onTouchMove_no_touch (at_node n event) w Hd Ht) ]
    | rewrite (onTouchMove_idle (at_node n event) w Hd) ]
  | destruct (dragging (sensor w)) eqn:Hd;
    [ destruct (first_touch event) eqn:Ht;
      [ rewrite (onTouchEnd_touch (at_node n event) n _ w Hd eq_refl Ht)
      | rewrite (onTouchEnd_no_touch (at_node n event) n w Hd eq_refl Ht) ]
    | rewrite (onTouchEnd_idle (at_node n event) w Hd) ]
  | rewrite onScroll_eq
  | unfold onContextMenu, preventDefault ];
  cbn [fst snd sensor host listeners timers next_timer defaultPrevented
       propagationStopped triggered containers options_delay currentContainer
       currentScrollableParent dragging tapTimeout ev_id at_node with_timers].

(** *** Facts that hold of every callback *)

(** Callbacks never change the page. *)
Lemma host_call cb n event w :
  host (exec (call cb (at_node n event)) w) = host w.
Proof. call_cases cb n event w; try done. by destruct (tapTimeout (sensor w)). Qed.

Lemma listeners_ok_call cb n event w :
  listeners_ok w → listeners_ok (exec (call cb (at_node n event)) w).
Proof.
  rewrite !listeners_ok_spec. intros Hok m ty c.
  call_cases cb n event w; try (by apply Hok);
    repeat case_match; set_unfold; naive_solver.
Qed.

(** No callback turns [dragging] on. *)
Lemma dragging_call cb n event w :
  dragging (sensor (exec (call cb (at_node n event)) w)) = true →
  dragging (sensor w) = true.
Proof.
  call_cases cb n event w; try done; try congruence.
  by destruct (tapTimeout (sensor w)).
Qed.

(** *** Recorded drag events grow at the end *)

Lemma extends_refl P w : extends P w w.
Proof. exists []. by rewrite app_nil_r. Qed.

Lemma extends_same P w w' : triggered w' = triggered w → extends P w w'.
Proof. intros H. exists []. by rewrite app_nil_r. Qed.

Lemma extends_trans P w1 w2 w3 :
  extends P w1 w2 → extends P w2 w3 → extends P w1 w3.
Proof.
  intros (n1 & H1 & F1) (n2 & H2 & F2). exists (n1 ++ n2). split.
  - by rewrite H2, H1, app_assoc.
  - by apply Forall_app.
Qed.

Lemma extends_weaken (P Q : option element * SensorEvent.t → Prop) w w' :
  (∀ x, P x → Q x) → extends P w w' → extends Q w w'.
Proof.
  intros HPQ (new & H & F). exists new. split; [done|].
  eapply Forall_impl; eauto.
Qed.

Lemma triggered_since_app w w' new :
  triggered w' = triggered w ++ new → triggered_since w w' = new.
Proof. intros H. unfold triggered_since. rewrite H. apply drop_app_length. Qed.

Lemma extends_since P w w' : extends P w w' → Forall P (triggered_since w w').
Proof. intros (new & H & F). by rewrite (triggered_since_app _ _ _ H). Qed.

Lemma extends_nothing w w' :
  extends (λ _, False) w w' → triggered w' = triggered w.
Proof.
  intros (new & H & F). destruct new as [|x new].
  - by rewrite app_nil_r in H.
  - by inversion F.
Qed.

(** *** The host invoking callbacks *)

Lemma invoke_cases n ty event w cb :
  invoke n ty event w cb = w ∨
  ((n, ty, cb) ∈ listeners w ∧
   invoke n ty event w cb = exec (call cb (at_node n event)) w).
Proof. unfold invoke. case_decide; auto. Qed.

Lemma invoke_registered n ty event w cb :
  (n, ty, cb) ∈ listeners w →
  invoke n ty event w cb = exec (call cb (at_node n event)) w.
Proof. intros H. unfold invoke. by rewrite decide_True. Qed.

Lemma invoke_unregistered n ty event w cb :
  (n, ty, cb) ∉ listeners w → invoke n ty event w cb = w.
Proof. intros H. unfold invoke. by rewrite decide_False. Qed.

Lemma invoke_other n ty event w cb :
  listeners_ok w → cb ≠ handler_for ty → invoke n ty event w cb = w.
Proof.
  rewrite listeners_ok_spec. intros Hok Hne. apply invoke_unregistered.
  intros Hin. by apply Hne, (Hok n).
Qed.

(** A property of worlds kept by every callback is kept by the host's
    dispatch, whatever is registered. *)
Lemma dispatchEvent_inv (P : World → Prop) n ty event w :
  (∀ cb w, P w → P (exec (call cb (at_node n event)) w)) →
  P w → P (dispatchEvent n ty event w).
Proof.
  intros Hcall. unfold dispatchEvent.
  assert (Hinv : ∀ cb w, P w → P (invoke n ty event w cb)).
  { intros cb w0 H0. destruct (invoke_cases n ty event w0 cb) as [->|[_ ->]]; auto. }
  generalize callbacks. intros cbs. revert w.
  induction cbs as [|cb cbs IH]; cbn; auto.
Qed.

Lemma listeners_ok_invoke n ty event w cb :
  listeners_ok w → listeners_ok (invoke n ty event w cb).
Proof.
  intros H. destruct (invoke_cases n ty event w cb) as [->|[_ ->]]; [done|].
  by apply listeners_ok_call.
Qed.

Lemma listeners_ok_dispatchEvent n ty event w :
  listeners_ok w → listeners_ok (dispatchEvent n ty event w).
Proof. apply dispatchEvent_inv. intros. by apply listeners_ok_call. Qed.

(** With a well-typed listener table, at most the one callback of the
    event's type runs. *)
Lemma foldl_invoke_ok n ty event cbs :
  NoDup cbs → ∀ w, listeners_ok w →
  foldl (invoke n ty event) w cbs =
  if decide (handler_for ty ∈ cbs) then invoke n ty event w (handler_for ty)
  else w.
Proof.
  induction 1 as [|cb cbs Hnotin Hnodup IH]; intros w Hok; cbn [foldl].
  - rewrite decide_False; [done|]. apply not_elem_of_nil.
  - destruct (decide (cb = handler_for ty)) as [->|Hne].
    + rewrite IH by by apply listeners_ok_invoke.
      rewrite decide_False by done. rewrite decide_True; [done|]. left.
    + rewrite (invoke_other _ _ _ w) by done. rewrite IH by done.
      destruct (decide (handler_for ty ∈ cbs)) as [Hin|Hin].
      * rewrite decide_True; [done|]. by right.
      * rewrite decide_False; [done|]. rewrite elem_of_cons. naive_solver.
Qed.

Lemma dispatchEvent_ok n ty event w :
  listeners_ok w →
  dispatchEvent n ty event w = invoke n ty event w (handler_for ty).
Proof.
  intros Hok. unfold dispatchEvent. rewrite foldl_invoke_ok; [| |done].
  - rewrite decide_True; [done|]. unfold callbacks. destruct ty; set_solver.
  - unfold callbacks. repeat (constructor; [set_solver|]). constructor.
Qed.

Lemma dispatchEvent_registered n ty event w :
  listeners_ok w → (n, ty, handler_for ty) ∈ listeners w →
  dispatchEvent n ty event w = exec (call (handler_for ty) (at_node n event)) w.
Proof. intros Hok Hin. by rewrite dispatchEvent_ok, invoke_registered. Qed.

Lemma dispatchEvent_unregistered n ty event w :
  listeners_ok w → (n, ty, handler_for ty) ∉ listeners w →
  dispatchEvent n ty event w = w.
Proof. intros Hok Hin. by rewrite dispatchEvent_ok, invoke_unregistered. Qed.

Lemma host_dispatchEvent n ty event w : host (dispatchEvent n ty event w) = host w.
Proof.
  apply (dispatchEvent_inv (λ w', host w' = host w)); [|done].
  intros cb w' H. by rewrite host_call.
Qed.

(** *** A timer firing *)

Lemma fire_not_pending id w : timers w !! id = None → fire id w = w.
Proof. intros H. unfold fire. by rewrite H. Qed.

Lemma fire_pending id t w :
  timers w !! id = Some t →
  fire id w =
  exec (onTouchHold (timeout_event t) (timeout_container t))
       (with_timers (delete id) w).
Proof. intros H. unfold fire. by rewrite H. Qed.

(** The world after the timer [id], armed for event and container of [t],
    fired with a touch point present. *)
Lemma fire_touch id t touch w :
  timers w !! id = Some t → first_touch (timeout_event t) = Some touch →
  let c := timeout_container t in
  let canceled :=
    cancels (host w) (Some c) (dragStartEvent (timeout_event t) c touch) in
  fire id w =
  {| sensor :=
       {| containers := containers (sensor w);
          options_delay := options_delay (sensor w);
          currentContainer := Some c;
          currentScrollableParent := currentScrollableParent (sensor w);
          dragging := negb canceled;
          tapTimeout := tapTimeout (sensor w) |};
     host := host w;
     listeners :=
       if canceled then listeners w
       else listeners w ∪ {[ (document, touchend, cb_onTouchEnd) ]}
              ∪ {[ (document, touchcancel, cb_onTouchEnd) ]}
              ∪ {[ (document, touchmove, cb_onTouchMove) ]};
     timers := delete id (timers w);
     next_timer := next_timer w;
     defaultPrevented := defaultPrevented w;
     propagationStopped := propagationStopped w;
     triggered :=
       triggered w ++ [(Some c, dragStartEvent (timeout_event t) c touch)] |}.
Proof.
  intros Ht Htouch c canceled. rewrite (fire_pending _ _ _ Ht). unfold exec.
  by rewrite (onTouchHold_touch _ _ _ _ Htouch).
Qed.

Lemma fire_no_touch id t w :
  timers w !! id = Some t → first_touch (timeout_event t) = None →
  fire id w = with_timers (delete id) w.
Proof.
  intros Ht Htouch. rewrite (fire_pending _ _ _ Ht). unfold exec.
  by rewrite (onTouchHold_no_touch _ _ _ Htouch).
Qed.

(** The three ways a [Fire] action can go. *)
Lemma fire_cases id w :
  (timers w !! id = None ∧ fire id w = w) ∨
  (∃ t, timers w !! id = Some t ∧ first_touch (timeout_event t) = None ∧
        fire id w = with_timers (delete id) w) ∨
  (∃ t touch, timers w !! id = Some t ∧
        first_touch (timeout_event t) = Some touch).
Proof.
  destruct (timers w !! id) as [t|] eqn:Ht.
  - destruct (first_touch (timeout_event t)) as [touch|] eqn:Htouch.
    + right. right. eauto.
    + right. left. exists t. eauto using fire_no_touch.
  - left. eauto using fire_not_pending.
Qed.

Lemma host_fire id w : host (fire id w) = host w.
Proof.
  destruct (fire_cases id w) as [[_ ->]|[(t & _ & _ & ->)|(t & touch & Ht & Htouch)]];
    try done.
  by rewrite (fire_touch _ _ _ _ Ht Htouch).
Qed.

Lemma listeners_ok_fire id w : listeners_ok w → listeners_ok (fire id w).
Proof.
  intros Hok.
  destruct (fire_cases id w) as [[_ ->]|[(t & _ & _ & ->)|(t & touch & Ht & Htouch)]];
    try done.
  rewrite (fire_touch _ _ _ _ Ht Htouch). revert Hok.
  rewrite !listeners_ok_spec. cbn. intros Hok n ty cb.
  destruct (cancels _ _ _); [apply Hok|]. set_unfold. naive_solver.
Qed.

(** *** Steps and runs *)

Lemma run_app w l1 l2 : run w (l1 ++ l2) = run (run w l1) l2.
Proof. apply foldl_app. Qed.

Lemma run_cons w a l : run w (a :: l) = run (step w a) l.
Proof. reflexivity. Qed.

(** Invariants of runs whose actions all satisfy [ok]. *)
Lemma run_inv (ok : Action → Prop) (P : World → Prop) l :
  (∀ w a, ok a → P w → P (step w a)) →
  Forall ok l → ∀ w, P w → P (run w l).
Proof.
  intros Hstep Hl. induction Hl as [|a l Ha _ IH]; intros w Hw; [done|].
  rewrite run_cons. apply IH. by apply Hstep.
Qed.

Lemma listeners_ok_step w a : listeners_ok w → listeners_ok (step w a).
Proof.
  destruct a as [n ty event|id|h| |]; cbn [step].
  - apply listeners_ok_dispatchEvent.
  - apply listeners_ok_fire.
  - done.
  - rewrite !listeners_ok_spec. unfold exec, attach, addEventListener. cbn.
    intros Hok n ty cb. set_unfold. naive_solver.
  - rewrite !listeners_ok_spec. unfold exec, detach, removeEventListener. cbn.
    intros Hok n ty cb. set_unfold. naive_solver.
Qed.

Lemma listeners_ok_run w l : listeners_ok w → listeners_ok (run w l).
Proof.
  apply (run_inv (λ _, True)).
  - intros. by apply listeners_ok_step.
  - by apply Forall_true.
Qed.

Lemma listeners_ok_initial s h : listeners_ok (initial s h).
Proof. rewrite listeners_ok_spec. cbn. set_solver. Qed.

(** ** Touch points *)

Lemma first_touch_spec event touch :
  first_touch event = Some touch ↔ touch_point_of event touch.
Proof.
  unfold first_touch, touch_point_of.
  destruct (touches event) as [|t ts]; cbn.
  - destruct (changedTouches event) as [|t' ts']; cbn; naive_solver.
  - naive_solver.
Qed.

Lemma first_touch_has_touch_point event :
  has_touch_point event = true ↔ ∃ touch, first_touch event = Some touch.
Proof.
  unfold has_touch_point, first_touch.
  destruct (touches event), (changedTouches event); cbn; naive_solver.
Qed.

Lemma first_touch_no_touch_point event :
  has_touch_point event = false ↔ first_touch event = None.
Proof.
  unfold has_touch_point, first_touch.
  destruct (touches event), (changedTouches event); cbn; naive_solver.
Qed.

(** ** Touch-start outside every container *)

(** C7: a touch-start whose target has no matching ancestor among the
    registered containers is ignored.  The handler completes normally and
    the world after it is the world before it: no field of the sensor
    changes, no listener is added, no timer is armed, and the event is not
    among those whose default action is suppressed unless it already was.
    The same holds when the host delivers the event to whatever node the
    handler is registered on. *)
Theorem C7_touchstart_without_container_has_no_effect event w :
  closest (host w) (target event) (by_list (containers (sensor w))) = None →
  onTouchStart event w = (Normal (), w) ∧
  ∀ n, invoke n touchstart event w cb_onTouchStart = w.
Proof.
  intros H. split; [by apply onTouchStart_no_match|].
  intros n. destruct (invoke_cases n touchstart event w cb_onTouchStart) as [->|[_ ->]];
    [done|].
  unfold exec, call. by rewrite (onTouchStart_no_match (at_node n event) w H).
Qed.

Lemma C7_witness :
  onTouchStart Sample.ev_outside (Sample.attached false)
    = (Normal (), Sample.attached false) ∧
  ∀ n, invoke n touchstart Sample.ev_outside (Sample.attached false) cb_onTouchStart
       = Sample.attached false.
Proof.
  apply (C7_touchstart_without_container_has_no_effect
           Sample.ev_outside (Sample.attached false)).
  reflexivity.
Defined.

(** ** Scroll while the long press is pending *)

(** C6: cancelling a pending long press by a scroll changes only the
    timer.  In every world [onScroll] completes normally; the timer the
    sensor's handle names is no longer pending and no other timer is
    touched; the listener table, the sensor's fields and every other part
    of the world are as before.  In particular, when the world is the one
    a touch-start on container [c] has just left, the document scroll
    listener, the context-menu suppressor of [c] and the scroll listener of
    the recorded scrollable parent are still registered after the scroll,
    [currentContainer] is still [c], [currentScrollableParent] is what it
    was, and the timer armed by the touch-start is gone. *)
Theorem C6_scroll_cancellation_changes_only_the_timer w :
  let w' := exec onScroll w in
  (completion onScroll w = Normal () ∧
   sensor w' = sensor w ∧
   listeners w' = listeners w ∧
   host w' = host w ∧
   next_timer w' = next_timer w ∧
   defaultPrevented w' = defaultPrevented w ∧
   propagationStopped w' = propagationStopped w ∧
   triggered w' = triggered w ∧
   timers w' =
     match tapTimeout (sensor w) with
     | Some id => delete id (timers w)
     | None => timers w
     end) ∧
  ∀ event c w0,
    closest (host w0) (target event) (by_list (containers (sensor w0))) = Some c →
    w = exec (onTouchStart event) w0 →
    is_Some (timers w !! next_timer w0) ∧
    timers w' = delete (next_timer w0) (timers w) ∧
    (document, scroll, cb_onScroll) ∈ listeners w' ∧
    (Elem c, contextmenu, cb_onContextMenu) ∈ listeners w' ∧
    (∀ p, currentScrollableParent (sensor w) = Some p →
          (Elem p, scroll, cb_onScroll) ∈ listeners w') ∧
    currentContainer (sensor w') = Some c ∧
    currentScrollableParent (sensor w') = currentScrollableParent (sensor w).
Proof.
  split.
  - unfold exec, completion. rewrite onScroll_eq. cbn.
    by destruct (tapTimeout (sensor w)).
  - intros event c w0 Hc ->. unfold exec.
    rewrite (onTouchStart_match _ _ _ Hc), onScroll_eq. cbn.
    rewrite lookup_insert_eq.
    split; [by eexists|]. split; [done|].
    split; [destruct (closest _ c _); set_solver|].
    split; [destruct (closest _ c _); set_solver|].
    split; [|done]. intros p Hp. rewrite Hp. set_solver.
Qed.

Lemma C6_witness :
  timers (exec onScroll (exec (onTouchStart Sample.ev_start) (Sample.attached false)))
    = delete 1%nat (timers (exec (onTouchStart Sample.ev_start) (Sample.attached false))) ∧
  (Elem 1%nat, contextmenu, cb_onContextMenu)
    ∈ listeners (exec onScroll (exec (onTouchStart Sample.ev_start) (Sample.attached false))).
Proof.
  destruct (C6_scroll_cancellation_changes_only_the_timer
              (exec (onTouchStart Sample.ev_start) (Sample.attached false)))
    as [_ H].
  destruct (H Sample.ev_start 1%nat (Sample.attached false))
    as (_ & Ht & _ & Hl & _); [reflexivity | reflexivity |].
  split; [exact Ht | exact Hl].
Defined.

(** ** The drag events a step records *)

Lemma triggered_call cb n event w :
  extends (λ ce, dragging (sensor w) = true ∧
                 from_touch_handler (host w) (at_node n event) ce)
          w (exec (call cb (at_node n event)) w).
Proof.
  call_cases cb n event w; try (by apply extends_same);
    try (destruct (tapTimeout (sensor w)); by apply extends_same).
  - eexists. split; [done|]. repeat constructor. eexists. split; [done|].
    by left.
  - eexists. split; [done|]. repeat constructor. eexists. split; [done|].
    by right.
Qed.

Lemma idle_call cb n event w :
  dragging (sensor w) = false →
  triggered (exec (call cb (at_node n event)) w) = triggered w.
Proof.
  intros Hd. apply extends_nothing.
  eapply extends_weaken; [|apply triggered_call]. intros ce [? _]. congruence.
Qed.

Lemma triggered_dispatchEvent n ty event w :
  extends (λ ce, dragging (sensor w) = true ∧
                 from_touch_handler (host w) (at_node n event) ce)
          w (dispatchEvent n ty event w).
Proof.
  pose (Q := λ w', host w' = host w ∧
                   (dragging (sensor w') = true → dragging (sensor w) = true) ∧
                   extends (λ ce, dragging (sensor w) = true ∧
                                  from_touch_handler (host w) (at_node n event) ce)
                           w w').
  cut (Q (dispatchEvent n ty event w)); [by intros (_ & _ & H)|].
  apply dispatchEvent_inv.
  - intros cb w' (Hh & Hd & Hext). split_and!.
    + by rewrite host_call.
    + intros H. by apply Hd, (dragging_call cb n event).
    + eapply extends_trans; [done|].
      eapply extends_weaken; [|apply triggered_call].
      intros ce [Hd' Hce]. rewrite <- Hh. auto.
  - split_and!; [done..|apply extends_refl].
Qed.

Lemma triggered_fire id w :
  extends (from_timer w id) w (fire id w).
Proof.
  destruct (fire_cases id w) as [[_ ->]|[(t & _ & _ & ->)|(t & touch & Ht & Htouch)]];
    try by apply extends_same.
  rewrite (fire_touch _ _ _ _ Ht Htouch). eexists. split; [done|].
  repeat constructor. by exists t, touch.
Qed.

(** Every drag event recorded by a step is a move or stop event built by
    a callback handling the dispatched event while dragging, or the start
    event of the timer that fired. *)
Lemma triggered_step w a :
  extends (λ ce,
             match a with
             | Dispatch n ty event =>
                 dragging (sensor w) = true ∧
                 from_touch_handler (host w) (at_node n event) ce
             | Fire id => from_timer w id ce
             | _ => False
             end) w (step w a).
Proof.
  destruct a as [n ty event|id|h| |]; cbn [step].
  - apply triggered_dispatchEvent.
  - apply triggered_fire.
  - by apply extends_same.
  - by apply extends_same.
  - by apply extends_same.
Qed.

(** ** Move events *)

(** C8: a touch-move delivered to the sensor's listener while dragging,
    whose event has a touch point -- the first active touch, or the first
    changed touch when no touch is active -- triggers exactly one drag
    event, a move event on the recorded container that carries as
    [clientX] and [clientY] the page coordinates of that touch point and
    as [target] what [document.elementFromPoint] answers at the page
    coordinates minus the window's scroll offset.  Conversely every move
    event recorded by a step of the event loop was dispatched while
    dragging, for a native event delivered by the host, and carries these
    values for that event's touch point. *)
Theorem C8_move_event_carries_touch_point_and_element_under_it w :
  (∀ n event touch,
     listeners_ok w →
     (n, touchmove, cb_onTouchMove) ∈ listeners w →
     dragging (sensor w) = true →
     touch_point_of event touch →
     triggered_since w (dispatchEvent n touchmove event w) =
       [(currentContainer (sensor w),
         SensorEvent.DragMoveSensorEvent
           {| SensorEvent.clientX := pageX touch;
              SensorEvent.clientY := pageY touch;
              SensorEvent.target :=
                elementFromPoint (host w) (pageX touch - scrollX (host w))
                                          (pageY touch - scrollY (host w));
              SensorEvent.container := currentContainer (sensor w);
              SensorEvent.originalEvent := at_node n event |})]) ∧
  (∀ a c e,
     (c, e) ∈ triggered_since w (step w a) →
     SensorEvent.is_move e = true →
     ∃ n ty event touch,
       a = Dispatch n ty event ∧
       dragging (sensor w) = true ∧
       touch_point_of event touch ∧
       SensorEvent.clientX (SensorEvent.fields e) = pageX touch ∧
       SensorEvent.clientY (SensorEvent.fields e) = pageY touch ∧
       SensorEvent.target (SensorEvent.fields e) =
         elementFromPoint (host w) (pageX touch - scrollX (host w))
                                   (pageY touch - scrollY (host w)) ∧
       SensorEvent.originalEvent (SensorEvent.fields e) = at_node n event).
Proof.
  split.
  - intros n event touch Hok Hin Hd Htouch.
    apply first_touch_spec in Htouch.
    apply triggered_since_app.
    rewrite dispatchEvent_registered by done. cbn [handler_for].
    unfold exec, call.
    by rewrite (onTouchMove_touch (at_node n event) touch w Hd Htouch).
  - intros a c e Hin Hmove.
    pose proof (extends_since _ _ _ (triggered_step w a)) as Hall.
    rewrite Forall_forall in Hall. specialize (Hall _ Hin).
    destruct a as [n ty event|id|h| |]; try done.
    + destruct Hall as (Hd & touch & Htouch & [He|He]); cbn in He; subst e;
        [|done].
      exists n, ty, event, touch. split_and!; try done.
      by apply first_touch_spec.
    + destruct Hall as (t & touch & _ & _ & [= _ ->]). done.
Qed.

Lemma C8_witness :
  let w := Sample.held false in
  let touch := Sample.point 30 60 in
  currentContainer (sensor w) = Some 1%nat ∧
  elementFromPoint (host w) (pageX touch - scrollX (host w))
                            (pageY touch - scrollY (host w)) = Some 2%nat ∧
  elementFromPoint (host w) (pageX touch) (pageY touch) = Some 9%nat ∧
  triggered_since w (dispatchEvent document touchmove ev_changed_only w) =
    [(currentContainer (sensor w),
      SensorEvent.DragMoveSensorEvent
        {| SensorEvent.clientX := pageX touch;
           SensorEvent.clientY := pageY touch;
           SensorEvent.target :=
             elementFromPoint (host w) (pageX touch - scrollX (host w))
                                       (pageY touch - scrollY (host w));
           SensorEvent.container := currentContainer (sensor w);
           SensorEvent.originalEvent := at_node document ev_changed_only |})].
Proof.
  split_and!; [vm_compute; reflexivity..|].
  refine (proj1 (C8_move_event_carries_touch_point_and_element_under_it
                   (Sample.held false))
            document ev_changed_only (Sample.point 30 60) _ _ _ _).
  - compute_done.
  - compute_done.
  - vm_compute. reflexivity.
  - right. split; [reflexivity|]. by exists [].
Defined.

(** ** Events without a touch point *)

(** C9: the read of the touch point's coordinates faults
    exactly when the event carries no touch point at all, that is when
    both of its touch lists are empty.  This is so when the long-press
    timer fires, in a move while dragging and at the end of a gesture.  An
    event one of whose lists is not empty has a touch point, and the read
    succeeds. *)
Theorem C9_fault_exactly_when_both_touch_lists_are_empty event w :
  (has_touch_point event = false ↔ touches event = [] ∧ changedTouches event = []) ∧
  (∀ c, completion (onTouchHold event c) w =
        if has_touch_point event then Normal () else Throw touch_is_undefined) ∧
  (dragging (sensor w) = true →
   completion (onTouchMove event) w =
     if has_touch_point event then Normal () else Throw touch_is_undefined) ∧
  (dragging (sensor w) = true →
   ∀ n, completion (onTouchEnd (at_node n event)) w =
        if has_touch_point event then Normal () else Throw touch_is_undefined).
Proof.
  split; [by rewrite first_touch_no_touch_point, first_touch_None|].
  destruct (has_touch_point event) eqn:Hp.
  - apply first_touch_has_touch_point in Hp as [touch Htouch]. split_and!.
    + intros c. unfold completion. by rewrite (onTouchHold_touch _ _ _ _ Htouch).
    + intros Hd. unfold completion. by rewrite (onTouchMove_touch _ _ _ Hd Htouch).
    + intros Hd n. unfold completion.
      by rewrite (onTouchEnd_touch (at_node n event) n touch w Hd eq_refl Htouch).
  - apply first_touch_no_touch_point in Hp. split_and!.
    + intros c. unfold completion. by rewrite (onTouchHold_no_touch _ _ _ Hp).
    + intros Hd. unfold completion. by rewrite (onTouchMove_no_touch _ _ Hd Hp).
    + intros Hd n. unfold completion.
      by rewrite (onTouchEnd_no_touch (at_node n event) n w Hd eq_refl Hp).
Qed.

Lemma C9_witness :
  completion (onTouchMove Sample.ev_empty) (Sample.held false)
    = Throw touch_is_undefined ∧
  completion (onTouchEnd (at_node document Sample.ev_end)) (Sample.held false)
    = Normal ().
Proof.
  split.
  - apply (C9_fault_exactly_when_both_touch_lists_are_empty
             Sample.ev_empty (Sample.held false)). reflexivity.
  - apply (C9_fault_exactly_when_both_touch_lists_are_empty
             Sample.ev_end (Sample.held false)). reflexivity.
Defined.

(** The touch-end of the sample gesture has an empty list of active
    touches, and is handled without a fault. *)
Lemma one_empty_touch_list_is_not_a_fault : ¬ fault_if_either_touch_list_is_empty.
Proof.
  intros H.
  specialize (H (Sample.held false) document Sample.ev_end eq_refl
                (or_introl eq_refl)).
  vm_compute in H. discriminate H.
Qed.

(** ** While the sensor is not dragging *)

Lemma idle_dispatchEvent n ty event w :
  dragging (sensor w) = false →
  dragging (sensor (dispatchEvent n ty event w)) = false ∧
  triggered (dispatchEvent n ty event w) = triggered w.
Proof.
  intros Hd.
  apply (dispatchEvent_inv
           (λ w', dragging (sensor w') = false ∧ triggered w' = triggered w));
    [|done].
  intros cb w' [Hd' Ht]. split.
  - destruct (dragging (sensor (exec _ w'))) eqn:E; [|done].
    apply dragging_call in E. congruence.
  - by rewrite idle_call.
Qed.

(** Without a timer firing the sensor does not start to drag, and while it
    is not dragging no drag event is triggered. *)
Lemma idle_step w a :
  no_fire a = true → dragging (sensor w) = false →
  dragging (sensor (step w a)) = false ∧ triggered (step w a) = triggered w.
Proof.
  intros Ha Hd. destruct a as [n ty event|id|h| |]; try done.
  by apply idle_dispatchEvent.
Qed.

Lemma idle_run w l :
  Forall (λ a, no_fire a = true) l → dragging (sensor w) = false →
  dragging (sensor (run w l)) = false ∧ triggered (run w l) = triggered w.
Proof.
  intros Hl Hd.
  apply (run_inv (λ a, no_fire a = true)
           (λ w', dragging (sensor w') = false ∧ triggered w' = triggered w) l);
    [|done..].
  intros w' a Ha [Hd' Ht]. destruct (idle_step w' a Ha Hd') as [? ?].
  split; congruence.
Qed.

(** ** While the sensor is dragging *)

(** The callbacks for move, scroll and context-menu events leave the
    sensor and the listener table alone, and trigger move events only. *)
Lemma light_call cb n event w :
  cb ≠ cb_onTouchStart → cb ≠ cb_onTouchEnd →
  let w' := exec (call cb (at_node n event)) w in
  sensor w' = sensor w ∧ listeners w' = listeners w ∧
  extends (λ ce, SensorEvent.is_stop ce.2 = false) w w'.
Proof.
  intros H1 H2. call_cases cb n event w; try done;
    try (split_and!; [done..|by apply extends_same]).
  - split_and!; [done..|]. eexists. split; [done|]. by repeat constructor.
  - destruct (tapTimeout (sensor w)); (split_and!; [done..|by apply extends_same]).
Qed.

Lemma light_step w a :
  listeners_ok w → before_end a = true →
  sensor (step w a) = sensor w ∧
  (∀ l, l ≠ (document, touchstart, cb_onTouchStart) →
        l ∈ listeners (step w a) ↔ l ∈ listeners w) ∧
  extends (λ ce, SensorEvent.is_stop ce.2 = false) w (step w a).
Proof.
  intros Hok Ha. destruct a as [n ty event|id|h| |]; try done; cbn [step].
  - rewrite dispatchEvent_ok by done.
    destruct (invoke_cases n ty event w (handler_for ty)) as [->|[_ ->]].
    { split_and!; [done..|apply extends_refl]. }
    destruct (light_call (handler_for ty) n event w) as (Hs & Hl & He);
      [by destruct ty..|].
    split_and!; [done| |done]. intros l _. by rewrite Hl.
  - split_and!; [done..|by apply extends_same].
  - split_and!; [done| |by apply extends_same].
    intros l Hl. unfold exec, attach, addEventListener. cbn. set_solver.
  - split_and!; [done| |by apply extends_same].
    intros l Hl. unfold exec, detach, removeEventListener. cbn. set_solver.
Qed.

Lemma light_run w l :
  listeners_ok w → Forall (λ a, before_end a = true) l →
  sensor (run w l) = sensor w ∧
  (∀ x, x ≠ (document, touchstart, cb_onTouchStart) →
        x ∈ listeners (run w l) ↔ x ∈ listeners w) ∧
  extends (λ ce, SensorEvent.is_stop ce.2 = false) w (run w l).
Proof.
  intros Hok Hl.
  apply (run_inv (λ a, before_end a = true)
           (λ w', listeners_ok w' ∧ sensor w' = sensor w ∧
                  (∀ x, x ≠ (document, touchstart, cb_onTouchStart) →
                        x ∈ listeners w' ↔ x ∈ listeners w) ∧
                  extends (λ ce, SensorEvent.is_stop ce.2 = false) w w') l);
    [|done|].
  - intros w' a Ha (Hok' & Hs & Hx & He).
    destruct (light_step w' a Hok' Ha) as (Hs' & Hx' & He'). split_and!.
    + by apply listeners_ok_step.
    + congruence.
    + intros x Hne. by rewrite Hx', Hx.
    + by eapply extends_trans.
  - split_and!; [done..|apply extends_refl].
Qed.

(** ** The end of a gesture *)


(** What the clean-up at the head of [onTouchEnd] does to the listener
    table when the listener runs on the document, with or without a touch
    point in the event: the document's scroll listener and that of the
    recorded scrollable parent go; every element keeps its context-menu
    suppressor, because the removal is addressed to [event.currentTarget],
    the document. *)
Lemma touch_end_cleanup ty event w :
  listeners_ok w → is_end ty = true →
  (document, ty, cb_onTouchEnd) ∈ listeners w →
  dragging (sensor w) = true →
  let w' := dispatchEvent document ty event w in
  ((document, scroll, cb_onScroll) ∉ listeners w') ∧
  (∀ p, currentScrollableParent (sensor w) = Some p →
        (Elem p, scroll, cb_onScroll) ∉ listeners w') ∧
  (∀ c, (Elem c, contextmenu, cb_onContextMenu) ∈ listeners w' ↔
        (Elem c, contextmenu, cb_onContextMenu) ∈ listeners w).
Proof.
  intros Hok Hty Hin Hd.
  rewrite dispatchEvent_registered; [|done|by destruct ty].
  replace (handler_for ty) with cb_onTouchEnd by by destruct ty.
  unfold exec, call. destruct (first_touch event) as [touch|] eqn:Htouch.
  - rewrite (onTouchEnd_touch (at_node document event) document touch w Hd eq_refl Htouch).
    cbn. destruct (currentScrollableParent (sensor w)) as [p|].
    + split_and!; [set_solver| |set_solver]. intros ? [= <-]. set_solver.
    + split_and!; [set_solver|done|set_solver].
  - rewrite (onTouchEnd_no_touch (at_node document event) document w Hd eq_refl Htouch).
    cbn. destruct (currentScrollableParent (sensor w)) as [p|].
    + split_and!; [set_solver| |set_solver]. intros ? [= <-]. set_solver.
    + split_and!; [set_solver|done|set_solver].
Qed.

(** C2, evaluated on the sample gesture: container 1 is recorded and
    carries the context-menu suppressor when the finger is lifted; after
    the touch-end the document's scroll listener and the scroll listener of
    the scrollable parent 3 are removed, but the suppressor is still
    registered on container 1. *)
Theorem C2_context_menu_suppressor_stays_on_container :
  let w := Sample.held false in
  let w' := dispatchEvent document touchend Sample.ev_end w in
  dragging (sensor w) = true ∧
  currentContainer (sensor w) = Some 1%nat ∧
  currentScrollableParent (sensor w) = Some 3%nat ∧
  ((document, scroll, cb_onScroll) ∉ listeners w') ∧
  ((Elem 3%nat, scroll, cb_onScroll) ∉ listeners w') ∧
  (Elem 1%nat, contextmenu, cb_onContextMenu) ∈ listeners w'.
Proof. cbv zeta. split_and!; compute_done. Qed.




(** ** Within one gesture *)

(** While the sensor is not dragging, the events of a gesture that reach
    it change neither its fields nor the listener table (the registration
    of [onTouchStart] is [attach]'s and [detach]'s). *)
Lemma idle_gesture_step w a :
  listeners_ok w → dragging (sensor w) = false → same_gesture a = true →
  sensor (step w a) = sensor w ∧
  ∀ x, x ≠ (document, touchstart, cb_onTouchStart) →
       x ∈ listeners (step w a) ↔ x ∈ listeners w.
Proof.
  intros Hok Hd Ha. destruct a as [n ty event|id|h| |]; try discriminate Ha;
    cbn [step].
  - rewrite dispatchEvent_ok by done.
    destruct (invoke_cases n ty event w (handler_for ty)) as [->|[_ ->]]; [done|].
    destruct ty; cbn in Ha; try discriminate Ha; cbn [handler_for];
      unfold exec, call.
    + by rewrite onTouchMove_idle.
    + by rewrite onTouchEnd_idle.
    + by rewrite onTouchEnd_idle.
    + rewrite onScroll_eq. cbn. by destruct (tapTimeout (sensor w)).
    + done.
  - done.
  - split; [done|]. intros x Hx. unfold exec, attach, addEventListener. cbn.
    set_solver.
  - split; [done|]. intros x Hx. unfold exec, detach, removeEventListener. cbn.
    set_solver.
Qed.

Lemma idle_gesture_run l :
  Forall (λ a, same_gesture a = true) l → ∀ w,
  listeners_ok w → dragging (sensor w) = false →
  sensor (run w l) = sensor w ∧
  ∀ x, x ≠ (document, touchstart, cb_onTouchStart) →
       x ∈ listeners (run w l) ↔ x ∈ listeners w.
Proof.
  induction 1 as [|a l Ha _ IH]; intros w Hok Hd; [done|].
  rewrite run_cons.
  destruct (idle_gesture_step w a Hok Hd Ha) as [Hs Hl].
  destruct (IH (step w a)) as [Hs' Hl'].
  { by apply listeners_ok_step. }
  { by rewrite Hs. }
  split; [congruence|]. intros x Hx. by rewrite Hl', Hl.
Qed.

(** The world a touch-start on container [c], delivered to the document,
    leaves: the sensor tracks the new gesture. *)
Lemma touchstart_tracked event c w :
  listeners_ok w →
  (document, touchstart, cb_onTouchStart) ∈ listeners w →
  closest (host w) (target event) (by_list (containers (sensor w))) = Some c →
  let w1 := dispatchEvent document touchstart event w in
  let t := {| timeout_event := at_node document event; timeout_container := c;
              timeout_delay := options_delay (sensor w) |} in
  timers w1 = <[ next_timer w := t ]> (timers w) ∧
  triggered w1 = triggered w ∧
  dragging (sensor w1) = dragging (sensor w) ∧
  tracked (next_timer w) t (currentScrollableParent (sensor w1)) w1.
Proof.
  intros Hok Hin Hc. cbv zeta. rewrite dispatchEvent_registered by done.
  cbn [handler_for]. unfold exec, call.
  rewrite (onTouchStart_match (at_node document event) c w Hc). cbn.
  split_and!; [done..|]. split; [done|]. right. cbn.
  rewrite lookup_insert_eq. split_and!; try done.
  - destruct (closest _ c _); set_solver.
  - destruct (closest _ c _); set_solver.
  - intros p ->. set_solver.
Qed.

(** ** A gesture whose start event is canceled *)

(** C4: take a gesture whose long-press timer fires (with a touch point
    in the captured touch-start) and whose start event some listener
    cancels.  The firing triggers that start event and nothing else;
    [dragging] is false after it and [currentContainer] is the matched
    container.  Whatever the host does next, short of another long-press
    timer firing, [dragging] stays false and no drag event is triggered,
    so neither a move nor a stop event; and as long as no further
    touch-start is processed, [currentContainer] stays the matched
    container. *)
Theorem C4_canceled_start_event_means_no_drag w id t touch0 rest :
  listeners_ok w →
  timers w !! id = Some t →
  first_touch (timeout_event t) = Some touch0 →
  cancels (host w) (Some (timeout_container t))
    (dragStartEvent (timeout_event t) (timeout_container t) touch0) = true →
  Forall (λ a, no_fire a = true) rest →
  let c := timeout_container t in
  let w1 := fire id w in
  let w2 := run w1 rest in
  triggered_since w w1 = [(Some c, dragStartEvent (timeout_event t) c touch0)] ∧
  dragging (sensor w1) = false ∧
  currentContainer (sensor w1) = Some c ∧
  dragging (sensor w2) = false ∧
  triggered w2 = triggered w1 ∧
  (Forall (λ a, same_gesture a = true) rest →
   currentContainer (sensor w2) = Some c).
Proof.
  intros Hok Ht Htouch0 Hcancel Hrest c w1 w2.
  assert (Hok1 : listeners_ok w1) by (by apply listeners_ok_fire).
  pose proof (fire_touch id t touch0 w Ht Htouch0) as F. cbv zeta in F.
  rewrite Hcancel in F. cbn [negb] in F. fold w1 c in F.
  assert (Hd1 : dragging (sensor w1) = false) by (by rewrite F).
  assert (Hc1 : currentContainer (sensor w1) = Some c) by (by rewrite F).
  assert (Hs1 : triggered_since w w1 = [(Some c, dragStartEvent (timeout_event t) c touch0)]).
  { apply triggered_since_app. by rewrite F. }
  destruct (idle_run w1 rest Hrest Hd1) as [Hd2 Ht2]. fold w2 in Hd2, Ht2.
  assert (Hg : Forall (λ a, same_gesture a = true) rest →
               currentContainer (sensor w2) = Some c).
  { intros Hsame. destruct (idle_gesture_run rest Hsame w1 Hok1 Hd1) as [Hs _].
    fold w2 in Hs. by rewrite Hs. }
  clearbody w1 w2. by split_and!.
Qed.

Lemma C4_witness :
  let w1 := fire 1 (Sample.pending true) in
  let w2 := run w1 [Dispatch document touchmove Sample.ev_move;
                    Dispatch document touchend Sample.ev_end] in
  dragging (sensor w1) = false ∧
  currentContainer (sensor w1) = Some 1%nat ∧
  dragging (sensor w2) = false ∧
  triggered w2 = triggered w1 ∧
  currentContainer (sensor w2) = Some 1%nat.
Proof.
  assert (H := C4_canceled_start_event_means_no_drag
                 (Sample.pending true) 1%nat
                 {| timeout_event := at_node document Sample.ev_start;
                    timeout_container := 1%nat; timeout_delay := 100 |}
                 (Sample.point 10 10)
                 [Dispatch document touchmove Sample.ev_move;
                  Dispatch document touchend Sample.ev_end]).
  destruct H as (_ & Hd1 & Hc1 & Hd2 & Ht2 & Hc2).
  - compute_done.
  - vm_compute. reflexivity.
  - vm_compute. reflexivity.
  - vm_compute. reflexivity.
  - repeat constructor.
  - split_and!; [exact Hd1|exact Hc1|exact Hd2|exact Ht2|].
    apply Hc2. repeat constructor.
Defined.

(** ** A canceled start, among other gestures *)










(** ** Scroll before the long press matures *)

(** Only [onTouchStart] arms a timer, and it captures the event it is
    handed. *)
Lemma not_captured_call eid cb n event w :
  ev_id event ≠ eid → not_captured eid w →
  not_captured eid (exec (call cb (at_node n event)) w).
Proof.
  unfold not_captured. intros Hne Hw.
  call_cases cb n event w; try done.
  - by apply map_Forall_insert_2.
  - destruct (tapTimeout (sensor w)); [by apply map_Forall_delete|done].
  - destruct (tapTimeout (sensor w)); [by apply map_Forall_delete|done].
  - destruct (tapTimeout (sensor w)); [by apply map_Forall_delete|done].
Qed.

Lemma not_captured_step eid w a :
  other_event eid a → not_captured eid w →
  not_captured eid (step w a) ∧
  extends (λ ce, ¬ start_of eid ce) w (step w a).
Proof.
  intros Ha Hw. split.
  - destruct a as [n ty event|id|h| |]; cbn [step]; try exact Hw.
    + apply dispatchEvent_inv; [|done]. intros cb w' Hw'.
      by apply not_captured_call.
    + destruct (fire_cases id w)
        as [[_ ->]|[(t & _ & _ & ->)|(t & touch & Ht & Htouch)]]; [done| |].
      * by apply map_Forall_delete.
      * rewrite (fire_touch _ _ _ _ Ht Htouch). by apply map_Forall_delete.
  - eapply extends_weaken; [|apply triggered_step].
    intros ce Hce [Hstart Hid]. destruct a as [n ty event|id|h| |]; try done.
    + destruct Hce as (_ & touch & _ & [E|E]); rewrite E in Hstart; done.
    + destruct Hce as (t & touch & Ht & _ & ->). cbn in Hid.
      by apply (Hw id t).
Qed.

Lemma not_captured_run eid l :
  Forall (other_event eid) l → ∀ w, not_captured eid w →
  extends (λ ce, ¬ start_of eid ce) w (run w l).
Proof.
  induction 1 as [|a l Ha _ IH]; intros w Hw; [apply extends_refl|].
  rewrite run_cons. destruct (not_captured_step eid w a Ha Hw) as [Hw' Hext].
  eapply extends_trans; [done|]. by apply IH.
Qed.

(** ** Scroll before the long press matures, among other gestures *)

Lemma armed_call id eid parent cb n event w :
  ev_id event ≠ eid → (id < next_timer w)%nat →
  (tapTimeout (sensor w) = Some id →
   timers w !! id = None ∨
   (currentScrollableParent (sensor w) = parent ∧
    (document, scroll, cb_onScroll) ∈ listeners w ∧
    (∀ p, parent = Some p → (Elem p, scroll, cb_onScroll) ∈ listeners w))) →
  (∀ id' t', timers w !! id' = Some t' →
             id' = id ∨ ev_id (timeout_event t') ≠ eid) →
  let w' := exec (call cb (at_node n event)) w in
  (id < next_timer w')%nat ∧
  (tapTimeout (sensor w') = Some id →
   timers w' !! id = None ∨
   (currentScrollableParent (sensor w') = parent ∧
    (document, scroll, cb_onScroll) ∈ listeners w' ∧
    (∀ p, parent = Some p → (Elem p, scroll, cb_onScroll) ∈ listeners w'))) ∧
  (∀ id' t', timers w' !! id' = Some t' →
             id' = id ∨ ev_id (timeout_event t') ≠ eid).
Proof.
  intros Hev Hlt Hh Hcap.
  assert (Hdel : ∀ k id' t', delete k (timers w) !! id' = Some t' →
                             id' = id ∨ ev_id (timeout_event t') ≠ eid).
  { intros k id' t' H. apply lookup_delete_Some in H as [_ H]. eauto. }
  assert (Hclear : ∀ k, k = id → delete k (timers w) !! id = None).
  { intros k ->. apply lookup_delete_eq. }
  call_cases cb n event w; try (split_and!; assumption).
  - (* touch-start on a container: the handle moves on *)
    split_and!; [lia| |].
    + intros [= E]. lia.
    + intros id' t' H. apply lookup_insert_Some in H as [[_ <-]|[_ H]]; cbn; eauto.
  - (* end of a drag *)
    split_and!; [done| |].
    + intros E. left. rewrite E. by apply Hclear.
    + destruct (tapTimeout (sensor w)); eauto.
  - (* end of a drag without a touch point *)
    split_and!; [done| |].
    + intros E. left. rewrite E. by apply Hclear.
    + destruct (tapTimeout (sensor w)); eauto.
  - (* scroll *)
    destruct (tapTimeout (sensor w)) as [k|] eqn:E; cbn; rewrite ?E;
      [|split_and!; assumption].
    split_and!; [done| |by eauto].
    intros [= ->]. left. apply lookup_delete_eq.
Qed.

Lemma armed_step id eid parent w a :
  before_firing id eid a → armed id eid parent w →
  armed id eid parent (step w a) ∧
  extends (λ ce, ¬ start_of eid ce) w (step w a).
Proof.
  intros Ha (Hok & Hlt & Hh & Hcap). split.
  - split; [by apply listeners_ok_step|].
    destruct a as [n ty event|k|h| |]; cbn [step].
    + rewrite dispatchEvent_ok by done.
      destruct (invoke_cases n ty event w (handler_for ty)) as [->|[_ ->]];
        [by split_and!|].
      by apply armed_call.
    + destruct (fire_cases k w)
        as [[_ ->]|[(t & _ & _ & ->)|(t & touch & Ht & Htouch)]];
        [by split_and!| |].
      * cbn. split_and!; [done| |].
        -- intros E. destruct (Hh E) as [Hn|?]; [left|by right].
           by rewrite lookup_delete_ne.
        -- intros id' t' H. apply lookup_delete_Some in H as [_ H]. eauto.
      * rewrite (fire_touch _ _ _ _ Ht Htouch). cbn. split_and!; [done| |].
        -- intros E. destruct (Hh E) as [Hn|(Hp & HA & HB)]; [left|right].
           ++ by rewrite lookup_delete_ne.
           ++ split_and!; [done|destruct (cancels _ _ _); set_solver|].
              intros p Hpp. specialize (HB p Hpp).
              destruct (cancels _ _ _); set_solver.
        -- intros id' t' H. apply lookup_delete_Some in H as [_ H]. eauto.
    + by split_and!.
    + unfold exec, attach, addEventListener. cbn. split_and!; [done| |done].
      intros E. destruct (Hh E) as [?|(Hp & HA & HB)]; [by left|right].
      split_and!; [done|set_solver|]. intros p Hpp. specialize (HB p Hpp).
      set_solver.
    + unfold exec, detach, removeEventListener. cbn. split_and!; [done| |done].
      intros E. destruct (Hh E) as [?|(Hp & HA & HB)]; [by left|right].
      split_and!; [done|set_solver|]. intros p Hpp. specialize (HB p Hpp).
      set_solver.
  - eapply extends_weaken; [|apply triggered_step].
    intros ce Hce [Hstart Hid]. destruct a as [n ty event|k|h| |]; try done.
    + destruct Hce as (_ & touch & _ & [E|E]); rewrite E in Hstart; done.
    + destruct Hce as (t & touch & Ht & _ & ->). cbn in Hid, Ha.
      destruct (Hcap k t Ht); done.
Qed.

Lemma armed_run id eid parent l :
  Forall (before_firing id eid) l → ∀ w,
  armed id eid parent w →
  armed id eid parent (run w l) ∧
  extends (λ ce, ¬ start_of eid ce) w (run w l).
Proof.
  induction 1 as [|a l Ha _ IH]; intros w Hw.
  { split; [done|apply extends_refl]. }
  rewrite run_cons. destruct (armed_step id eid parent w a Ha Hw) as [Hw' He].
  destruct (IH _ Hw') as [Hw'' He']. split; [done|].
  by eapply extends_trans.
Qed.

(** A touch-start on a container, delivered to the attached sensor, arms
    the gesture. *)
Lemma touchstart_armed event c w :
  listeners_ok w →
  (document, touchstart, cb_onTouchStart) ∈ listeners w →
  closest (host w) (target event) (by_list (containers (sensor w))) = Some c →
  not_captured (ev_id event) w →
  let w1 := dispatchEvent document touchstart event w in
  armed (next_timer w) (ev_id event) (currentScrollableParent (sensor w1)) w1.
Proof.
  intros Hok Hin Hc Hfresh w1.
  assert (Hok1 : listeners_ok w1) by (by apply listeners_ok_dispatchEvent).
  assert (E : w1 = exec (onTouchStart (at_node document event)) w).
  { subst w1. by rewrite dispatchEvent_registered. }
  unfold exec in E. rewrite (onTouchStart_match (at_node document event) c w Hc) in E.
  cbn [snd] in E. clearbody w1. split; [done|]. rewrite E. cbn. split_and!.
  - lia.
  - intros _. right. split_and!; [done| |].
    + destruct (closest (host w) c _); set_solver.
    + intros p ->. set_solver.
  - intros id' t' H. apply lookup_insert_Some in H as [[<- _]|[_ H]]; [by left|].
    right. by apply (Hfresh id' t').
Qed.

(** C5, as amended: take a gesture begun by a touch-start on a container,
    delivered to the attached sensor, and let a scroll event reach the
    document or the recorded scrollable ancestor before the gesture's
    timer fires, at a moment when the sensor's handle still names that
    timer (no later touch-start on a container has armed another).
    Whatever else happened in between -- other timers firing, touch-ends,
    touch-starts outside the containers -- the gesture's timer is then no
    longer pending, and whatever the host does afterwards no start event
    whose original event is the gesture's touch-start is ever
    triggered. *)
Theorem C5_scroll_before_long_press_cancels_the_start
    w0 event c mid n sev rest :
  listeners_ok w0 →
  (document, touchstart, cb_onTouchStart) ∈ listeners w0 →
  closest (host w0) (target event) (by_list (containers (sensor w0))) = Some c →
  not_captured (ev_id event) w0 →
  Forall (before_firing (next_timer w0) (ev_id event)) mid →
  Forall (other_event (ev_id event)) rest →
  let id := next_timer w0 in
  let w1 := dispatchEvent document touchstart event w0 in
  let w2 := run w1 mid in
  let w3 := dispatchEvent n scroll sev w2 in
  (n = document ∨
   ∃ p, currentScrollableParent (sensor w1) = Some p ∧ n = Elem p) →
  tapTimeout (sensor w2) = Some id →
  tapTimeout (sensor w1) = Some id ∧
  is_Some (timers w1 !! id) ∧
  timers w3 !! id = None ∧
  Forall (λ ce, ¬ start_of (ev_id event) ce) (triggered_since w0 (run w3 rest)).
Proof.
  intros Hok Hin Hc Hfresh Hmid Hrest id w1 w2 w3 Hn Hhandle.
  destruct (touchstart_tracked event c w0 Hok Hin Hc) as (Htm1 & Htg1 & _ & Htr1).
  pose proof (touchstart_armed event c w0 Hok Hin Hc Hfresh) as Harmed1.
  cbv zeta in Harmed1. fold w1 id in Htm1, Htg1, Htr1, Harmed1.
  set (parent := currentScrollableParent (sensor w1)) in *.
  assert (Hid1 : tapTimeout (sensor w1) = Some id) by apply Htr1.
  assert (Hp1 : is_Some (timers w1 !! id)).
  { rewrite Htm1, lookup_insert_eq. by eexists. }
  clear Htr1 Htm1. clearbody w1 parent.
  destruct (armed_run id (ev_id event) parent mid Hmid w1 Harmed1)
    as ((Hok2 & _ & Hh2 & Hcap2) & Hext2).
  fold w2 in Hok2, Hh2, Hcap2, Hext2. clearbody w2.
  (* the scroll *)
  assert (H3 : timers w3 !! id = None ∧ timers w3 ⊆ timers w2 ∧
               triggered w3 = triggered w2).
  { subst w3. rewrite dispatchEvent_ok by done. cbn [handler_for].
    destruct (Hh2 Hhandle) as [Hnone|(Hpp & HA & HC)].
    - destruct (invoke_cases n scroll sev w2 cb_onScroll) as [->|[_ ->]]; [done|].
      unfold exec, call. rewrite onScroll_eq, Hhandle. cbn.
      split_and!; [apply lookup_delete_eq|apply delete_subseteq|done].
    - rewrite invoke_registered.
      + unfold exec, call. rewrite onScroll_eq, Hhandle. cbn.
        split_and!; [apply lookup_delete_eq|apply delete_subseteq|done].
      + destruct Hn as [->|(p & Hp & ->)]; [done|]. by apply HC. }
  destruct H3 as (Hnone3 & Hsub3 & Htg3). clearbody w3.
  split_and!; [done..|].
  assert (Hfresh3 : not_captured (ev_id event) w3).
  { intros id' t' Ht'.
    assert (Hne : id' ≠ id) by (intros ->; congruence).
    eapply lookup_weaken in Ht'; [|exact Hsub3].
    destruct (Hcap2 id' t' Ht'); done. }
  apply extends_since.
  eapply extends_trans; [apply extends_same, Htg1|].
  eapply extends_trans; [exact Hext2|].
  eapply extends_trans; [apply extends_same, Htg3|].
  by apply not_captured_run.
Qed.

Lemma C5_witness :
  let w2 := run (dispatchEvent document touchstart Sample.ev_start TwoContainers.attached)
              [Dispatch document touchend Sample.ev_end;
               Dispatch document touchmove Sample.ev_move] in
  let w3 := dispatchEvent (Elem 3%nat) scroll Sample.ev_scroll w2 in
  timers w3 !! 1%nat = None ∧
  Forall (λ ce, ¬ start_of 1 ce)
    (triggered_since TwoContainers.attached
       (run w3 [Dispatch document touchstart Sample.ev_outside; Fire 1; Fire 2])).
Proof.
  assert (H := C5_scroll_before_long_press_cancels_the_start
                 TwoContainers.attached Sample.ev_start 1%nat
                 [Dispatch document touchend Sample.ev_end;
                  Dispatch document touchmove Sample.ev_move]
                 (Elem 3%nat) Sample.ev_scroll
                 [Dispatch document touchstart Sample.ev_outside; Fire 1; Fire 2]).
  destruct H as (_ & _ & Hnone & Hnever).
  - compute_done.
  - compute_done.
  - vm_compute. reflexivity.
  - compute_done.
  - repeat constructor; cbn; discriminate.
  - repeat constructor; cbn; discriminate.
  - right. exists 3%nat. split; [vm_compute; reflexivity|reflexivity].
  - vm_compute. reflexivity.
  - split; [exact Hnone|exact Hnever].
Defined.

(** A second touch-start on a container before the scroll: the scroll
    then cancels the second long press, and the first one fires. *)
Lemma C5_counterexample : ¬ scroll_cancels_every_pending_gesture.
Proof.
  intros H.
  destruct (H TwoContainers.attached Sample.ev_start 1%nat
              [Dispatch document touchstart Sample.ev_outside]
              document Sample.ev_scroll [Fire 1]) as [Hnone _].
  - compute_done.
  - compute_done.
  - vm_compute. reflexivity.
  - compute_done.
  - repeat constructor; cbn; discriminate.
  - repeat constructor.
  - by left.
  - vm_compute in Hnone. discriminate Hnone.
Qed.

(** * Further properties of the sensor *)

(** ** Attaching and detaching *)

Lemma world_eq w1 w2 :
  sensor w1 = sensor w2 → host w1 = host w2 → listeners w1 = listeners w2 →
  timers w1 = timers w2 → next_timer w1 = next_timer w2 →
  defaultPrevented w1 = defaultPrevented w2 →
  propagationStopped w1 = propagationStopped w2 →
  triggered w1 = triggered w2 → w1 = w2.
Proof. destruct w1, w2. cbn. by intros -> -> -> -> -> -> -> ->. Qed.

(** X1: [attach] registers [onTouchStart] for touch-start on the
    document; attaching again changes nothing, one [detach] undoes any
    number of [attach] calls, and neither touches another registration. *)
Theorem X1_attach_is_idempotent_and_detach_undoes_it w :
  (document, touchstart, cb_onTouchStart) ∈ listeners (exec attach w) ∧
  exec attach (exec attach w) = exec attach w ∧
  ((document, touchstart, cb_onTouchStart)
     ∉ listeners (exec detach (exec attach (exec attach w)))) ∧
  exec detach (exec detach w) = exec detach w ∧
  (∀ x, x ≠ (document, touchstart, cb_onTouchStart) →
        (x ∈ listeners (exec attach w) ↔ x ∈ listeners w) ∧
        (x ∈ listeners (exec detach w) ↔ x ∈ listeners w)).
Proof.
  unfold exec, attach, detach, addEventListener, removeEventListener. cbn.
  split_and!.
  - set_solver.
  - apply world_eq; cbn; try done. set_solver.
  - set_solver.
  - apply world_eq; cbn; try done. set_solver.
  - intros x Hx. set_solver.
Qed.

Lemma X1_witness :
  (Elem 1%nat, contextmenu, cb_onContextMenu)
    ∈ listeners (exec detach (Sample.pending false)) ∧
  (Elem 1%nat, contextmenu, cb_onContextMenu)
    ∈ listeners (exec attach (Sample.pending false)).
Proof.
  destruct (X1_attach_is_idempotent_and_detach_undoes_it (Sample.pending false))
    as (_ & _ & _ & _ & H).
  destruct (H (Elem 1%nat, contextmenu, cb_onContextMenu)) as [Ha Hd];
    [discriminate|].
  split; [apply Hd|apply Ha]; compute_done.
Defined.

(** ** The timers the sensor arms *)

Lemma timers_hold_call cs delay h cb n event w :
  containers (sensor w) = cs → options_delay (sensor w) = delay → host w = h →
  timers_hold_their_container cs delay h w →
  let w' := exec (call cb (at_node n event)) w in
  containers (sensor w') = cs ∧ options_delay (sensor w') = delay ∧
  host w' = h ∧
  timers_hold_their_container cs delay h w'.
Proof.
  unfold timers_hold_their_container. intros Hcs Hdelay Hh Hw. cbv zeta.
  call_cases cb n event w.
  all: split_and!; try done.
  all: try (by apply map_Forall_delete).
  all: try (destruct (tapTimeout (sensor w));
            first [done | by apply map_Forall_delete]).
  apply map_Forall_insert_2; [|done]. cbn. by rewrite <- Hcs, <- Hh.
Qed.

Lemma timers_hold_step cs delay h w a :
  no_page a = true →
  containers (sensor w) = cs ∧ options_delay (sensor w) = delay ∧
  host w = h ∧ timers_hold_their_container cs delay h w →
  containers (sensor (step w a)) = cs ∧
  options_delay (sensor (step w a)) = delay ∧
  host (step w a) = h ∧
  timers_hold_their_container cs delay h (step w a).
Proof.
  intros Ha Hw. destruct a as [n ty event|id|h'| |]; try discriminate Ha;
    cbn [step]; try exact Hw.
  - apply (dispatchEvent_inv
             (λ w', containers (sensor w') = cs ∧ options_delay (sensor w') = delay ∧
                    host w' = h ∧ timers_hold_their_container cs delay h w'));
      [|done].
    intros cb w' (? & ? & ? & ?). by apply timers_hold_call.
  - destruct Hw as (Hcs & Hdelay & Hh & Hw).
    destruct (fire_cases id w)
      as [[_ ->]|[(t & _ & _ & ->)|(t & touch & Ht & Htouch)]].
    + done.
    + split_and!; [done..|]. by apply map_Forall_delete.
    + rewrite (fire_touch _ _ _ _ Ht Htouch). cbn.
      split_and!; [done..|]. by apply map_Forall_delete.
Qed.

Lemma timers_hold_run cs delay h l :
  Forall (λ a, no_page a = true) l → ∀ w,
  containers (sensor w) = cs ∧ options_delay (sensor w) = delay ∧
  host w = h ∧ timers_hold_their_container cs delay h w →
  containers (sensor (run w l)) = cs ∧
  options_delay (sensor (run w l)) = delay ∧
  host (run w l) = h ∧
  timers_hold_their_container cs delay h (run w l).
Proof.
  induction 1 as [|a l Ha _ IH]; intros w Hw; [done|].
  rewrite run_cons. apply IH. by apply timers_hold_step.
Qed.

(** X2: on a page that does not change, every long-press timer pending in
    a world a constructed sensor can reach was armed by [onTouchStart] for
    a touch-start on a container: the container it holds is the one
    [closest] finds in the sensor's list for the target of the captured
    touch-start, and its delay is the delay given to the constructor.  The
    start event such a timer triggers when it fires is triggered on that
    container, has the target of the touch-start as its target and the
    touch point of the touch-start as its coordinates. *)
Theorem X2_pending_timer_holds_the_container_of_its_touch_start
    cs delay h acts id t :
  Forall (λ a, no_page a = true) acts →
  let w := run (constructed cs delay h) acts in
  timers w !! id = Some t →
  closest h (target (timeout_event t)) (by_list cs) = Some (timeout_container t) ∧
  timeout_delay t = delay ∧
  ∀ touch, first_touch (timeout_event t) = Some touch →
    triggered_since w (fire id w) =
      [(Some (timeout_container t),
        SensorEvent.DragStartSensorEvent
          {| SensorEvent.clientX := pageX touch;
             SensorEvent.clientY := pageY touch;
             SensorEvent.target := Some (target (timeout_event t));
             SensorEvent.container := Some (timeout_container t);
             SensorEvent.originalEvent := timeout_event t |})].
Proof.
  intros Hacts w Ht.
  destruct (timers_hold_run cs delay h acts Hacts (constructed cs delay h))
    as (_ & _ & _ & Hw).
  { split_and!; [done..|]. apply map_Forall_empty. }
  fold w in Hw. clearbody w.
  destruct (Hw id t Ht) as [Hc Hdelay]. split_and!; [done..|].
  intros touch Htouch. apply triggered_since_app.
  by rewrite (fire_touch id t touch w Ht Htouch).
Qed.

Lemma X2_witness :
  let w := run (constructed [1; 9]%nat 100 (Sample.page false))
             [Attach; Dispatch document touchstart Sample.ev_start;
              Dispatch document touchstart Sample.ev_outside;
              Dispatch document scroll Sample.ev_scroll] in
  let t := {| timeout_event := at_node document Sample.ev_start;
              timeout_container := 1%nat; timeout_delay := 100 |} in
  closest (Sample.page false) (target (timeout_event t)) (by_list [1; 9]%nat)
    = Some (timeout_container t) ∧
  timeout_delay t = 100 ∧
  ∀ touch, first_touch (timeout_event t) = Some touch →
    triggered_since w (fire 1 w) =
      [(Some (timeout_container t),
        SensorEvent.DragStartSensorEvent
          {| SensorEvent.clientX := pageX touch;
             SensorEvent.clientY := pageY touch;
             SensorEvent.target := Some (target (timeout_event t));
             SensorEvent.container := Some (timeout_container t);
             SensorEvent.originalEvent := timeout_event t |})].
Proof.
  refine (X2_pending_timer_holds_the_container_of_its_touch_start
            [1; 9]%nat 100 (Sample.page false)
            [Attach; Dispatch document touchstart Sample.ev_start;
             Dispatch document touchstart Sample.ev_outside;
             Dispatch document scroll Sample.ev_scroll]
            1%nat
            {| timeout_event := at_node document Sample.ev_start;
               timeout_container := 1%nat; timeout_delay := 100 |} _ _).
  - repeat constructor.
  - vm_compute. reflexivity.
Defined.

(** ** Touch-start on a container *)

(** X3: a touch-start on a container, delivered to an attached sensor
    that is not dragging, suppresses the event's default action, records
    the container, and arms one timer for [options.delay] that captures
    the event and the container, under a handle the sensor keeps; other
    pending timers are left alone.  It triggers no drag event itself, and
    none is triggered afterwards as long as no timer fires. *)
Theorem X3_touchstart_on_container_arms_the_long_press w event c rest :
  listeners_ok w →
  (document, touchstart, cb_onTouchStart) ∈ listeners w →
  closest (host w) (target event) (by_list (containers (sensor w))) = Some c →
  dragging (sensor w) = false →
  Forall (λ a, no_fire a = true) rest →
  let w1 := dispatchEvent document touchstart event w in
  ev_id event ∈ defaultPrevented w1 ∧
  currentContainer (sensor w1) = Some c ∧
  tapTimeout (sensor w1) = Some (next_timer w) ∧
  timers w1 !! next_timer w =
    Some {| timeout_event := at_node document event; timeout_container := c;
            timeout_delay := options_delay (sensor w) |} ∧
  (∀ id, id ≠ next_timer w → timers w1 !! id = timers w !! id) ∧
  triggered w1 = triggered w ∧
  triggered (run w1 rest) = triggered w ∧
  dragging (sensor (run w1 rest)) = false.
Proof.
  intros Hok Hin Hc Hd Hrest w1.
  assert (E : w1 = exec (onTouchStart (at_node document event)) w).
  { subst w1. by rewrite dispatchEvent_registered. }
  unfold exec in E. rewrite (onTouchStart_match (at_node document event) c w Hc) in E.
  cbn [snd] in E.
  assert (Hd1 : dragging (sensor w1) = false) by (by rewrite E).
  assert (Ht1 : triggered w1 = triggered w) by (by rewrite E).
  destruct (idle_run w1 rest Hrest Hd1) as [Hd2 Ht2].
  clearbody w1. split_and!; [| | | | |done|congruence|done]; rewrite E; cbn.
  - set_solver.
  - done.
  - done.
  - apply lookup_insert_eq.
  - intros id Hid. by apply lookup_insert_ne.
Qed.

Lemma X3_witness :
  let w1 := dispatchEvent document touchstart Sample.ev_start (Sample.attached false) in
  timers w1 !! 1%nat =
    Some {| timeout_event := at_node document Sample.ev_start;
            timeout_container := 1%nat; timeout_delay := 100 |} ∧
  triggered (run w1 [Dispatch document touchmove Sample.ev_move;
                     Dispatch document touchend Sample.ev_end]) = [].
Proof.
  assert (H := X3_touchstart_on_container_arms_the_long_press
                 (Sample.attached false) Sample.ev_start 1%nat
                 [Dispatch document touchmove Sample.ev_move;
                  Dispatch document touchend Sample.ev_end]).
  destruct H as (_ & _ & _ & Ht & _ & _ & Hn & _).
  - compute_done.
  - compute_done.
  - vm_compute. reflexivity.
  - reflexivity.
  - repeat constructor.
  - split; [exact Ht|exact Hn].
Defined.

(** ** The drag events, one by one *)

(** X4: every start event recorded by a step of the event loop was
    triggered by a pending long-press timer firing.  It is triggered on
    the container the timer captured and names it as its container; its
    target is the target of the captured touch-start, its coordinates are
    the page coordinates of that event's touch point, and its original
    event is that event.  The timer is no longer pending afterwards. *)
Theorem X4_start_event_comes_from_the_timer w a c e :
  (c, e) ∈ triggered_since w (step w a) →
  SensorEvent.is_start e = true →
  ∃ id t touch,
    a = Fire id ∧
    timers w !! id = Some t ∧
    timers (step w a) !! id = None ∧
    touch_point_of (timeout_event t) touch ∧
    c = Some (timeout_container t) ∧
    SensorEvent.container (SensorEvent.fields e) = Some (timeout_container t) ∧
    SensorEvent.target (SensorEvent.fields e) = Some (target (timeout_event t)) ∧
    SensorEvent.clientX (SensorEvent.fields e) = pageX touch ∧
    SensorEvent.clientY (SensorEvent.fields e) = pageY touch ∧
    SensorEvent.originalEvent (SensorEvent.fields e) = timeout_event t.
Proof.
  intros Hin Hstart.
  pose proof (extends_since _ _ _ (triggered_step w a)) as Hall.
  rewrite Forall_forall in Hall. specialize (Hall _ Hin).
  destruct a as [n ty event|id|h| |]; try done.
  - destruct Hall as (_ & touch & _ & [He|He]); cbn in He; by subst e.
  - destruct Hall as (t & touch & Ht & Htouch & [= -> ->]).
    exists id, t, touch. cbn [step].
    rewrite (fire_touch _ _ _ _ Ht Htouch). cbn.
    split_and!; try done; [apply lookup_delete_eq|by apply first_touch_spec].
Qed.

Lemma X4_witness :
  ∃ id t touch,
    Fire 1 = Fire id ∧
    timers (Sample.pending false) !! id = Some t ∧
    timers (step (Sample.pending false) (Fire 1)) !! id = None ∧
    touch_point_of (timeout_event t) touch ∧
    Some 1%nat = Some (timeout_container t) ∧
    SensorEvent.container (SensorEvent.fields
      (dragStartEvent (at_node document Sample.ev_start) 1%nat (Sample.point 10 10)))
      = Some (timeout_container t) ∧
    SensorEvent.target (SensorEvent.fields
      (dragStartEvent (at_node document Sample.ev_start) 1%nat (Sample.point 10 10)))
      = Some (target (timeout_event t)) ∧
    SensorEvent.clientX (SensorEvent.fields
      (dragStartEvent (at_node document Sample.ev_start) 1%nat (Sample.point 10 10)))
      = pageX touch ∧
    SensorEvent.clientY (SensorEvent.fields
      (dragStartEvent (at_node document Sample.ev_start) 1%nat (Sample.point 10 10)))
      = pageY touch ∧
    SensorEvent.originalEvent (SensorEvent.fields
      (dragStartEvent (at_node document Sample.ev_start) 1%nat (Sample.point 10 10)))
      = timeout_event t.
Proof.
  apply (X4_start_event_comes_from_the_timer
           (Sample.pending false) (Fire 1) (Some 1%nat)).
  - vm_compute. left.
  - reflexivity.
Defined.

(** X5: every stop event recorded by a step of the event loop was
    triggered while dragging by a native event the host delivered; its
    target is null, its coordinates are the page coordinates of that
    event's touch point, its original event is that event, and it names
    as its container what it is triggered on. *)
Theorem X5_stop_event_has_null_target w a c e :
  (c, e) ∈ triggered_since w (step w a) →
  SensorEvent.is_stop e = true →
  ∃ n ty event touch,
    a = Dispatch n ty event ∧
    dragging (sensor w) = true ∧
    touch_point_of event touch ∧
    SensorEvent.target (SensorEvent.fields e) = None ∧
    SensorEvent.container (SensorEvent.fields e) = c ∧
    SensorEvent.clientX (SensorEvent.fields e) = pageX touch ∧
    SensorEvent.clientY (SensorEvent.fields e) = pageY touch ∧
    SensorEvent.originalEvent (SensorEvent.fields e) = at_node n event.
Proof.
  intros Hin Hstop.
  pose proof (extends_since _ _ _ (triggered_step w a)) as Hall.
  rewrite Forall_forall in Hall. specialize (Hall _ Hin).
  destruct a as [n ty event|id|h| |]; try done.
  - destruct Hall as (Hd & touch & Htouch & [He|He]); cbn in He; subst e;
      [done|].
    exists n, ty, event, touch. split_and!; try done.
    by apply first_touch_spec.
  - destruct Hall as (t & touch & _ & _ & [= _ ->]). done.
Qed.

Lemma X5_witness :
  ∃ n ty event touch,
    Dispatch document touchcancel Sample.ev_end = Dispatch n ty event ∧
    dragging (sensor (Sample.held false)) = true ∧
    touch_point_of event touch ∧
    SensorEvent.target (SensorEvent.fields
      (dragStopEvent (Some 1%nat) (at_node document Sample.ev_end) (Sample.point 20 30)))
      = None ∧
    SensorEvent.container (SensorEvent.fields
      (dragStopEvent (Some 1%nat) (at_node document Sample.ev_end) (Sample.point 20 30)))
      = Some 1%nat ∧
    SensorEvent.clientX (SensorEvent.fields
      (dragStopEvent (Some 1%nat) (at_node document Sample.ev_end) (Sample.point 20 30)))
      = pageX touch ∧
    SensorEvent.clientY (SensorEvent.fields
      (dragStopEvent (Some 1%nat) (at_node document Sample.ev_end) (Sample.point 20 30)))
      = pageY touch ∧
    SensorEvent.originalEvent (SensorEvent.fields
      (dragStopEvent (Some 1%nat) (at_node document Sample.ev_end) (Sample.point 20 30)))
      = at_node n event.
Proof.
  apply (X5_stop_event_has_null_target
           (Sample.held false) (Dispatch document touchcancel Sample.ev_end)
           (Some 1%nat)).
  - vm_compute. left.
  - reflexivity.
Defined.

(** ** Default actions *)

(** X6: when the host delivers an event to the callback the sensor has
    registered for it, the event's default action is suppressed exactly in
    these cases: a touch-start whose target lies in a registered
    container; a touch-move, touch-end or touch-cancel while dragging (with
    or without a touch point in the event); a context-menu event.  A
    scroll event is never suppressed.  Propagation is stopped exactly for a
    touch-move while dragging, and the flags of other events are not
    touched. *)
Theorem X6_default_action_is_suppressed_exactly_when n ty event w :
  listeners_ok w →
  (n, ty, handler_for ty) ∈ listeners w →
  let w' := dispatchEvent n ty event w in
  (ev_id event ∈ defaultPrevented w' ↔
   ev_id event ∈ defaultPrevented w ∨ suppresses w ty event) ∧
  (ev_id event ∈ propagationStopped w' ↔
   ev_id event ∈ propagationStopped w ∨
   (ty = touchmove ∧ dragging (sensor w) = true)) ∧
  (∀ k, k ≠ ev_id event →
        (k ∈ defaultPrevented w' ↔ k ∈ defaultPrevented w) ∧
        (k ∈ propagationStopped w' ↔ k ∈ propagationStopped w)).
Proof.
  intros Hok Hin. cbv zeta. rewrite dispatchEvent_registered by done.
  unfold suppresses.
  destruct ty; cbn [handler_for]; unfold exec, call.
  - destruct (closest (host w) (target event) (by_list (containers (sensor w))))
      as [c|] eqn:Hc.
    + rewrite (onTouchStart_match (at_node n event) c w Hc). cbn.
      split_and!; [set_solver|naive_solver|set_solver].
    + rewrite (onTouchStart_no_match (at_node n event) w Hc). cbn.
      split_and!; [|naive_solver|done].
      split; [auto|]. intros [?|[? ?]]; done.
  - destruct (dragging (sensor w)) eqn:Hd.
    + destruct (first_touch event) as [touch|] eqn:Ht.
      * rewrite (onTouchMove_touch (at_node n event) touch w Hd Ht). cbn.
        split_and!; set_solver.
      * rewrite (onTouchMove_no_touch (at_node n event) w Hd Ht). cbn.
        split_and!; set_solver.
    + rewrite (onTouchMove_idle (at_node n event) w Hd).
      split_and!; [naive_solver|naive_solver|done].
  - destruct (dragging (sensor w)) eqn:Hd.
    + destruct (first_touch event) as [touch|] eqn:Ht.
      * rewrite (onTouchEnd_touch (at_node n event) n touch w Hd eq_refl Ht). cbn.
        split_and!; [set_solver|naive_solver|set_solver].
      * rewrite (onTouchEnd_no_touch (at_node n event) n w Hd eq_refl Ht). cbn.
        split_and!; [set_solver|naive_solver|set_solver].
    + rewrite (onTouchEnd_idle (at_node n event) w Hd).
      split_and!; [naive_solver|naive_solver|done].
  - destruct (dragging (sensor w)) eqn:Hd.
    + destruct (first_touch event) as [touch|] eqn:Ht.
      * rewrite (onTouchEnd_touch (at_node n event) n touch w Hd eq_refl Ht). cbn.
        split_and!; [set_solver|naive_solver|set_solver].
      * rewrite (onTouchEnd_no_touch (at_node n event) n w Hd eq_refl Ht). cbn.
        split_and!; [set_solver|naive_solver|set_solver].
    + rewrite (onTouchEnd_idle (at_node n event) w Hd).
      split_and!; [naive_solver|naive_solver|done].
  - rewrite onScroll_eq. cbn.
    destruct (tapTimeout (sensor w)); cbn;
      (split_and!; [naive_solver|naive_solver|done]).
  - unfold onContextMenu, preventDefault. cbn.
    split_and!; [set_solver|naive_solver|set_solver].
Qed.

Lemma X6_witness :
  (ev_id Sample.ev_scroll
     ∉ defaultPrevented (dispatchEvent document scroll Sample.ev_scroll (Sample.pending false))) ∧
  ev_id Sample.ev_move
    ∈ propagationStopped (dispatchEvent document touchmove Sample.ev_move (Sample.held false)).
Proof.
  split.
  - destruct (X6_default_action_is_suppressed_exactly_when
                document scroll Sample.ev_scroll (Sample.pending false))
      as ([H _] & _); [compute_done..|].
    intros Hin. destruct (H Hin) as [Hp|[]]. revert Hp. compute_done.
  - destruct (X6_default_action_is_suppressed_exactly_when
                document touchmove Sample.ev_move (Sample.held false))
      as (_ & [_ H] & _); [compute_done..|].
    apply H. right. split; reflexivity.
Defined.

(** ** Gestures that do not go by the book *)

(** A touch-end or touch-cancel delivered to the document, where
    [onTouchEnd] listens for it, runs [onTouchEnd] and nothing else. *)
Lemma dispatch_end_exec ty event w :
  listeners_ok w → is_end ty = true →
  (document, ty, cb_onTouchEnd) ∈ listeners w →
  dispatchEvent document ty event w
    = exec (onTouchEnd (at_node document event)) w.
Proof.
  intros Hok Hty Hin. rewrite dispatchEvent_registered; [|done|by destruct ty].
  by replace (handler_for ty) with cb_onTouchEnd by (by destruct ty).
Qed.

(** X7: a touch-end or touch-cancel without any touch point, handled
    while dragging, faults after half of the clean-up: the document's
    scroll listener is removed, the sensor's timer is cleared and the
    default action is suppressed, but no stop event is triggered, the
    sensor is still dragging on the same container and the listeners of
    the drag stay.  A later touch-end that does carry a touch point
    therefore still ends the drag with its one stop event. *)
Theorem X7_touch_end_without_touch_point_leaves_the_drag_open
    w ty event ty' event' touch c :
  listeners_ok w →
  is_end ty = true → is_end ty' = true →
  (document, ty, cb_onTouchEnd) ∈ listeners w →
  (document, ty', cb_onTouchEnd) ∈ listeners w →
  dragging (sensor w) = true →
  currentContainer (sensor w) = Some c →
  has_touch_point event = false →
  first_touch event' = Some touch →
  let w1 := dispatchEvent document ty event w in
  let w2 := dispatchEvent document ty' event' w1 in
  completion (onTouchEnd (at_node document event)) w = Throw touch_is_undefined ∧
  triggered w1 = triggered w ∧
  dragging (sensor w1) = true ∧
  currentContainer (sensor w1) = Some c ∧
  ((document, scroll, cb_onScroll) ∉ listeners w1) ∧
  (∀ id, tapTimeout (sensor w) = Some id → timers w1 !! id = None) ∧
  ev_id event ∈ defaultPrevented w1 ∧
  triggered_since w1 w2 =
    [(Some c, dragStopEvent (Some c) (at_node document event') touch)] ∧
  dragging (sensor w2) = false.
Proof.
  intros Hok Hty Hty' Hin Hin' Hd Hc Hno Htouch w1 w2.
  apply first_touch_no_touch_point in Hno.
  assert (Hok1 : listeners_ok w1) by (by apply listeners_ok_dispatchEvent).
  assert (E : w1 = exec (onTouchEnd (at_node document event)) w)
    by (by apply dispatch_end_exec).
  unfold exec in E.
  rewrite (onTouchEnd_no_touch (at_node document event) document w Hd eq_refl Hno) in E.
  cbn [snd] in E. clearbody w1.
  assert (Hd1 : dragging (sensor w1) = true) by (by rewrite E).
  assert (Hc1 : currentContainer (sensor w1) = Some c) by (by rewrite E).
  assert (Hin1 : (document, ty', cb_onTouchEnd) ∈ listeners w1).
  { rewrite E. cbn. destruct (currentScrollableParent (sensor w));
      destruct ty'; try discriminate Hty'; set_solver. }
  assert (E2 : w2 = exec (onTouchEnd (at_node document event')) w1)
    by (by apply dispatch_end_exec).
  unfold exec in E2.
  rewrite (onTouchEnd_touch (at_node document event') document touch w1 Hd1 eq_refl Htouch) in E2.
  cbn [snd] in E2. clearbody w2.
  split_and!.
  - unfold completion.
    by rewrite (onTouchEnd_no_touch (at_node document event) document w Hd eq_refl Hno).
  - by rewrite E.
  - done.
  - done.
  - rewrite E. cbn. destruct (currentScrollableParent (sensor w)); set_solver.
  - intros id Hid. rewrite E. cbn. rewrite Hid. apply lookup_delete_eq.
  - rewrite E. cbn. set_solver.
  - apply triggered_since_app. rewrite E2. cbn. by rewrite Hc1.
  - by rewrite E2.
Qed.

Lemma X7_witness :
  let w1 := dispatchEvent document touchend Sample.ev_empty (Sample.held false) in
  let w2 := dispatchEvent document touchend Sample.ev_end w1 in
  dragging (sensor w1) = true ∧
  triggered_since w1 w2 =
    [(Some 1%nat,
      dragStopEvent (Some 1%nat) (at_node document Sample.ev_end) (Sample.point 20 30))].
Proof.
  assert (H := X7_touch_end_without_touch_point_leaves_the_drag_open
                 (Sample.held false) touchend Sample.ev_empty touchend Sample.ev_end
                 (Sample.point 20 30) 1%nat).
  destruct H as (_ & _ & Hd & _ & _ & _ & _ & Hs & _).
  - compute_done.
  - reflexivity.
  - reflexivity.
  - compute_done.
  - compute_done.
  - vm_compute. reflexivity.
  - vm_compute. reflexivity.
  - reflexivity.
  - reflexivity.
  - split; [exact Hd|exact Hs].
Defined.

(** X8: lifting the finger before the long press matures does not cancel
    it.  On a sensor that is not dragging, a touch-end or touch-cancel
    after the touch-start leaves the world exactly as the touch-start left
    it, wherever it is delivered: the timer stays pending, and when it
    fires the start event is triggered on the container and the sensor
    drags unless a listener cancels. *)
Theorem X8_touch_end_before_the_long_press_does_not_cancel_it
    w event c touch n ty event' :
  listeners_ok w →
  (document, touchstart, cb_onTouchStart) ∈ listeners w →
  closest (host w) (target event) (by_list (containers (sensor w))) = Some c →
  dragging (sensor w) = false →
  first_touch event = Some touch →
  is_end ty = true →
  let start := dragStartEvent (at_node document event) c touch in
  let w1 := dispatchEvent document touchstart event w in
  let w2 := dispatchEvent n ty event' w1 in
  let w3 := fire (next_timer w) w2 in
  w2 = w1 ∧
  triggered_since w w3 = [(Some c, start)] ∧
  dragging (sensor w3) = negb (cancels (host w) (Some c) start).
Proof.
  intros Hok Hin Hc Hd Htouch Hty start w1 w2 w3.
  destruct (touchstart_tracked event c w Hok Hin Hc) as (Htm1 & Htg1 & Hd1 & _).
  fold w1 in Htm1, Htg1, Hd1.
  assert (Hok1 : listeners_ok w1) by (by apply listeners_ok_dispatchEvent).
  assert (Hh1 : host w1 = host w) by apply host_dispatchEvent.
  rewrite Hd in Hd1. clearbody w1.
  assert (E2 : w2 = w1).
  { subst w2. rewrite dispatchEvent_ok by done.
    destruct (invoke_cases n ty event' w1 (handler_for ty)) as [->|[_ ->]]; [done|].
    replace (handler_for ty) with cb_onTouchEnd by (by destruct ty).
    unfold exec, call. by rewrite onTouchEnd_idle. }
  clearbody w2. subst w2.
  assert (Ht : timers w1 !! next_timer w =
               Some {| timeout_event := at_node document event;
                       timeout_container := c;
                       timeout_delay := options_delay (sensor w) |}).
  { rewrite Htm1. apply lookup_insert_eq. }
  pose proof (fire_touch (next_timer w) _ touch w1 Ht Htouch) as F.
  cbv zeta in F. cbn [timeout_event timeout_container] in F. fold w3 start in F.
  clearbody w3. split_and!; [done| |].
  - apply triggered_since_app. rewrite F. cbn. by rewrite Htg1.
  - rewrite F. cbn. by rewrite Hh1.
Qed.

Lemma X8_witness :
  let w1 := dispatchEvent document touchstart Sample.ev_start (Sample.attached false) in
  let w2 := dispatchEvent document touchend Sample.ev_end w1 in
  w2 = w1 ∧ dragging (sensor (fire 1 w2)) = true.
Proof.
  assert (H := X8_touch_end_before_the_long_press_does_not_cancel_it
                 (Sample.attached false) Sample.ev_start 1%nat (Sample.point 10 10)
                 document touchend Sample.ev_end).
  destruct H as (H2 & _ & Hd).
  - compute_done.
  - compute_done.
  - vm_compute. reflexivity.
  - reflexivity.
  - reflexivity.
  - reflexivity.
  - split; [exact H2|exact Hd].
Defined.



(** ** Detaching in the middle of a gesture *)

Lemma call_detach cb event w :
  cb ≠ cb_onTouchStart →
  exec (call cb event) (exec detach w) = exec detach (exec (call cb event) w).
Proof.
  intros Hcb. open_world w. destruct cb; try done; js_run;
    try done; apply world_eq; cbn; try done; set_solver.
Qed.

Lemma fire_detach id w : fire id (exec detach w) = exec detach (fire id w).
Proof.
  destruct (fire_cases id w)
    as [[Hn E]|[(t & Ht & Htouch & E)|(t & touch & Ht & Htouch)]].
  - rewrite E. by apply fire_not_pending.
  - rewrite E. by rewrite (fire_no_touch id t (exec detach w)).
  - rewrite (fire_touch id t touch w Ht Htouch).
    rewrite (fire_touch id t touch (exec detach w)) by done.
    unfold exec, detach, removeEventListener. cbn.
    apply world_eq; cbn; try done. destruct (cancels _ _ _); set_solver.
Qed.

Lemma step_detach w a :
  listeners_ok w → apart_from_touchstart a = true →
  step (exec detach w) a = exec detach (step w a).
Proof.
  intros Hok Ha.
  assert (Hok' : listeners_ok (exec detach w)) by apply (listeners_ok_step w Detach Hok).
  destruct a as [n ty event|id|h| |]; try discriminate Ha; cbn [step].
  - rewrite !dispatchEvent_ok by done. unfold invoke.
    assert (Hcb : handler_for ty ≠ cb_onTouchStart) by (by destruct ty).
    destruct (decide ((n, ty, handler_for ty) ∈ listeners w)) as [Hin|Hin].
    + rewrite decide_True.
      * by apply call_detach.
      * unfold exec, detach, removeEventListener. cbn.
        destruct ty; try discriminate Ha; set_solver.
    + rewrite decide_False; [done|].
      unfold exec, detach, removeEventListener. cbn. set_solver.
  - apply fire_detach.
  - done.
  - unfold exec, detach, removeEventListener. cbn.
    apply world_eq; cbn; try done; set_solver.
Qed.

(** X10: [detach] removes the touch-start listener and nothing else, and
    it interrupts nothing.  Whatever follows that is not a touch-start
    (timers firing, moves, ends, scrolls) goes exactly as it would have
    without the [detach], up to that one registration: a long press
    pending at the time of [detach] still fires and triggers its start
    event, and a drag under way still triggers its move and stop
    events. *)
Theorem X10_detach_interrupts_nothing w acts :
  listeners_ok w →
  Forall (λ a, apart_from_touchstart a = true) acts →
  run (exec detach w) acts = exec detach (run w acts) ∧
  triggered (run (exec detach w) acts) = triggered (run w acts) ∧
  sensor (run (exec detach w) acts) = sensor (run w acts) ∧
  timers (run (exec detach w) acts) = timers (run w acts).
Proof.
  intros Hok Hacts.
  assert (E : run (exec detach w) acts = exec detach (run w acts)).
  { revert w Hok. induction Hacts as [|a acts Ha _ IH]; intros w Hok; [done|].
    rewrite !run_cons, step_detach by done. apply IH.
    by apply listeners_ok_step. }
  by rewrite E.
Qed.

Lemma X10_witness :
  triggered (run (exec detach (Sample.pending false))
               [Fire 1; Dispatch document touchmove Sample.ev_move;
                Dispatch document touchend Sample.ev_end])
  = triggered (run (Sample.pending false)
               [Fire 1; Dispatch document touchmove Sample.ev_move;
                Dispatch document touchend Sample.ev_end]) ∧
  length (triggered (run (exec detach (Sample.pending false))
               [Fire 1; Dispatch document touchmove Sample.ev_move;
                Dispatch document touchend Sample.ev_end])) = 3%nat.
Proof.
  split; [|vm_compute; reflexivity].
  apply (X10_detach_interrupts_nothing (Sample.pending false)
           [Fire 1; Dispatch document touchmove Sample.ev_move;
            Dispatch document touchend Sample.ev_end]).
  - compute_done.
  - repeat constructor.
Defined.

(** ** What holds in every world a constructed sensor can reach *)

Lemma trace_phase_snoc l ce :
  trace_phase (l ++ [ce]) = advance (trace_phase l) ce.
Proof. unfold trace_phase. by rewrite foldl_app. Qed.

Lemma sound_call cb n event w :
  sound w → sound (exec (call cb (at_node n event)) w).
Proof.
  intros (Hready & (p & Hp & Hopen) & Hon). unfold sound, drag_ready in *.
  assert (Hsame : (dragging (sensor w) = true →
                   is_Some (currentContainer (sensor w)) ∧
                   (document, touchend, cb_onTouchEnd) ∈ listeners w ∧
                   (document, touchcancel, cb_onTouchEnd) ∈ listeners w ∧
                   (document, touchmove, cb_onTouchMove) ∈ listeners w) ∧
                  (∃ p, trace_phase (triggered w) = Some p ∧
                        (dragging (sensor w) = true → p = Open)) ∧
                  Forall on_its_container (triggered w)).
  { split_and!; [done| |done]. by exists p. }
  call_cases cb n event w; try rewrite Hdragging; try exact Hsame.
  - (* touch-start on a container *)
    split_and!; [|exists p; split; assumption|assumption].
    intros Hd. destruct (Hready Hd) as (_ & ? & ? & ?).
    split; [by eexists|].
    destruct (closest (host w) _ (by_predicate _)); set_solver.
  - (* move while dragging *)
    destruct (Hready eq_refl) as ([c Hc] & ? & ? & ?).
    split_and!; [done| |].
    + exists Open. rewrite trace_phase_snoc, Hp, (Hopen eq_refl). done.
    + apply Forall_app. split; [done|]. repeat constructor.
      rewrite Hc. by eexists.
  - (* end of the drag *)
    destruct (Hready eq_refl) as ([c Hc] & ? & ? & ?).
    split_and!; [done| |].
    + exists Closed. rewrite trace_phase_snoc, Hp, (Hopen eq_refl). done.
    + apply Forall_app. split; [done|]. repeat constructor.
      rewrite Hc. by eexists.
  - (* end without a touch point *)
    split_and!; [|exists p; split; assumption|assumption].
    intros _. destruct (Hready eq_refl) as (? & ? & ? & ?).
    split; [done|]. destruct (currentScrollableParent (sensor w)); set_solver.
  - (* scroll *)
    destruct (tapTimeout (sensor w)); exact Hsame.
Qed.

Lemma sound_fire id w : sound w → sound (fire id w).
Proof.
  intros Hs.
  destruct (fire_cases id w)
    as [[_ ->]|[(t & _ & _ & ->)|(t & touch & Ht & Htouch)]];
    [exact Hs|exact Hs|].
  destruct Hs as (Hready & (p & Hp & Hopen) & Hon).
  rewrite (fire_touch _ _ _ _ Ht Htouch). unfold sound, drag_ready. cbn.
  split_and!.
  - destruct (cancels _ _ _); cbn; [discriminate|]. intros _.
    split; [by eexists|set_solver].
  - exists Open. rewrite trace_phase_snoc, Hp. split; [by destruct p|done].
  - apply Forall_app. split; [done|]. repeat constructor. by eexists.
Qed.

Lemma sound_step w a : sound w → sound (step w a).
Proof.
  intros Hs. destruct a as [n ty event|id|h| |]; cbn [step].
  - apply dispatchEvent_inv; [|done]. intros cb w'. apply sound_call.
  - by apply sound_fire.
  - done.
  - destruct Hs as (Hready & Hp & Hon). split_and!; [|done..].
    intros Hd. destruct (Hready Hd) as (? & ? & ? & ?).
    unfold exec, attach, addEventListener. cbn. set_solver.
  - destruct Hs as (Hready & Hp & Hon). split_and!; [|done..].
    intros Hd. destruct (Hready Hd) as (? & ? & ? & ?).
    unfold exec, detach, removeEventListener. cbn. set_solver.
Qed.

Lemma sound_run w acts : sound w → sound (run w acts).
Proof.
  apply (run_inv (λ _, True)).
  - intros. by apply sound_step.
  - by apply Forall_true.
Qed.

Lemma sound_constructed cs delay h : sound (constructed cs delay h).
Proof.
  split_and!; [done| |constructor]. by exists Closed.
Qed.

(** ** Stop events *)

Lemma no_stop_call cb n event w :
  cb ≠ cb_onTouchEnd →
  extends (λ ce, SensorEvent.is_stop ce.2 = false) w
          (exec (call cb (at_node n event)) w).
Proof.
  intros Hcb. call_cases cb n event w; try done; try (by apply extends_same).
  - eexists. split; [done|]. by repeat constructor.
  - destruct (tapTimeout (sensor w)); by apply extends_same.
Qed.

Lemma no_stop_step w a :
  listeners_ok w → no_end a = true →
  extends (λ ce, SensorEvent.is_stop ce.2 = false) w (step w a).
Proof.
  intros Hok Ha. destruct a as [n ty event|id|h| |]; cbn [step];
    try (by apply extends_same).
  - rewrite dispatchEvent_ok by done.
    destruct (invoke_cases n ty event w (handler_for ty)) as [->|[_ ->]];
      [apply extends_refl|].
    apply no_stop_call. destruct ty; try discriminate Ha; discriminate.
  - eapply extends_weaken; [|apply triggered_fire].
    by intros ce (t & touch & _ & _ & ->).
Qed.

Lemma no_stop_run l :
  Forall (λ a, no_end a = true) l → ∀ w, listeners_ok w →
  extends (λ ce, SensorEvent.is_stop ce.2 = false) w (run w l).
Proof.
  induction 1 as [|a l Ha _ IH]; intros w Hok; [apply extends_refl|].
  rewrite run_cons. eapply extends_trans; [by apply no_stop_step|].
  apply IH. by apply listeners_ok_step.
Qed.

(** C1, as amended: take a gesture, in any world a constructed sensor can
    reach, whose long-press timer fires with a touch point in the captured
    touch-start and whose start event no listener cancels.  The sensor is
    then dragging, with the container of the gesture recorded.  Whatever
    follows short of a touch-end or touch-cancel -- further touch-starts
    and other timers firing included -- triggers no stop event.  If the
    sensor is still dragging when the first touch-end or touch-cancel
    reaches the document (carrying a touch point), that event triggers
    exactly one drag event: a stop event with the touch point's page
    coordinates and a null target, on the container the sensor has on
    record at that moment; then [dragging] is false and the touch-end,
    touch-cancel and touch-move listeners are removed, so that nothing the
    host does triggers a drag event until another long-press timer fires.
    The container on record is that of the gesture as long as no further
    touch-start was processed and no other timer fired in between.  If
    the sensor is no longer dragging (the start event of another gesture
    was canceled in between), the touch-end triggers nothing. *)
Theorem C1_exactly_one_stop_event_with_null_target
    cs delay h acts id t touch0 mid ty event touch rest :
  let w := run (constructed cs delay h) acts in
  timers w !! id = Some t →
  first_touch (timeout_event t) = Some touch0 →
  cancels (host w) (Some (timeout_container t))
    (dragStartEvent (timeout_event t) (timeout_container t) touch0) = false →
  Forall (λ a, no_end a = true) mid →
  is_end ty = true →
  first_touch event = Some touch →
  Forall (λ a, no_fire a = true) rest →
  let c := timeout_container t in
  let w1 := fire id w in
  let w2 := run w1 mid in
  let w3 := dispatchEvent document ty event w2 in
  dragging (sensor w1) = true ∧
  currentContainer (sensor w1) = Some c ∧
  Forall (λ ce, SensorEvent.is_stop ce.2 = false) (triggered_since w w2) ∧
  (Forall (λ a, before_end a = true) mid →
   dragging (sensor w2) = true ∧ currentContainer (sensor w2) = Some c) ∧
  (dragging (sensor w2) = true →
   ∃ c', currentContainer (sensor w2) = Some c' ∧
     triggered_since w2 w3 =
       [(Some c',
         SensorEvent.DragStopSensorEvent
           {| SensorEvent.clientX := pageX touch;
              SensorEvent.clientY := pageY touch;
              SensorEvent.target := None;
              SensorEvent.container := Some c';
              SensorEvent.originalEvent := at_node document event |})] ∧
     dragging (sensor w3) = false ∧
     ((document, touchend, cb_onTouchEnd) ∉ listeners w3) ∧
     ((document, touchcancel, cb_onTouchEnd) ∉ listeners w3) ∧
     ((document, touchmove, cb_onTouchMove) ∉ listeners w3) ∧
     triggered (run w3 rest) = triggered w3) ∧
  (dragging (sensor w2) = false → triggered w3 = triggered w2).
Proof.
  intros w Ht Htouch0 Hcancel Hmid Hty Htouch Hrest c w1 w2 w3.
  assert (Hok : listeners_ok w) by apply listeners_ok_run, listeners_ok_initial.
  pose proof (sound_run (constructed cs delay h) acts (sound_constructed cs delay h))
    as Hs.
  fold w in Hs. clearbody w.
  assert (Hok1 : listeners_ok w1) by (by apply listeners_ok_fire).
  assert (Hs1 : sound w1) by (by apply sound_fire).
  pose proof (fire_touch id t touch0 w Ht Htouch0) as F. cbv zeta in F.
  rewrite Hcancel in F. cbn [negb] in F. fold w1 c in F.
  assert (Hd1 : dragging (sensor w1) = true) by (by rewrite F).
  assert (Hc1 : currentContainer (sensor w1) = Some c) by (by rewrite F).
  assert (X1 : extends (λ ce, SensorEvent.is_stop ce.2 = false) w w1).
  { rewrite F. eexists. split; [done|]. by repeat constructor. }
  clear F.
  pose proof (no_stop_run mid Hmid w1 Hok1) as X2. fold w2 in X2.
  assert (Hlight : Forall (λ a, before_end a = true) mid → sensor w2 = sensor w1).
  { intros Hb. by destruct (light_run w1 mid Hok1 Hb) as (E & _). }
  assert (Hok2 : listeners_ok w2) by (by apply listeners_ok_run).
  assert (Hs2 : sound w2) by (by apply sound_run).
  clearbody w1 w2.
  split_and!; [done|done| | | |].
  - apply extends_since. by eapply extends_trans.
  - intros Hb. rewrite (Hlight Hb). by split.
  - intros Hd2. destruct Hs2 as (Hready & _).
    destruct (Hready Hd2) as ([c' Hc'] & Hend & Hcanc & Hmove).
    assert (Hin : (document, ty, cb_onTouchEnd) ∈ listeners w2)
      by (by destruct ty).
    assert (E : w3 = exec (onTouchEnd (at_node document event)) w2)
      by (by apply dispatch_end_exec).
    unfold exec in E.
    rewrite (onTouchEnd_touch (at_node document event) document touch w2
               Hd2 eq_refl Htouch) in E.
    cbn [snd] in E. clearbody w3. exists c'.
    assert (Hd3 : dragging (sensor w3) = false) by (by rewrite E).
    split_and!; [done| |done| | | |].
    + apply triggered_since_app. rewrite E. cbn. by rewrite Hc'.
    + rewrite E. cbn. destruct (currentScrollableParent (sensor w2)); set_solver.
    + rewrite E. cbn. destruct (currentScrollableParent (sensor w2)); set_solver.
    + rewrite E. cbn. destruct (currentScrollableParent (sensor w2)); set_solver.
    + by apply idle_run.
  - intros Hd2. by apply idle_dispatchEvent.
Qed.

Lemma C1_witness :
  let w := run (constructed [1; 9]%nat 100 (Sample.page false))
             [Attach; Dispatch document touchstart Sample.ev_start] in
  let w2 := run (fire 1 w)
              [Dispatch document touchstart Sample.ev_outside;
               Dispatch document touchmove Sample.ev_move] in
  let w3 := dispatchEvent document touchend Sample.ev_end w2 in
  ∃ c', currentContainer (sensor w2) = Some c' ∧
    triggered_since w2 w3 =
      [(Some c',
        SensorEvent.DragStopSensorEvent
          {| SensorEvent.clientX := pageX (Sample.point 20 30);
             SensorEvent.clientY := pageY (Sample.point 20 30);
             SensorEvent.target := None;
             SensorEvent.container := Some c';
             SensorEvent.originalEvent := at_node document Sample.ev_end |})] ∧
    dragging (sensor w3) = false ∧
    ((document, touchend, cb_onTouchEnd) ∉ listeners w3) ∧
    ((document, touchcancel, cb_onTouchEnd) ∉ listeners w3) ∧
    ((document, touchmove, cb_onTouchMove) ∉ listeners w3) ∧
    triggered (run w3 [Dispatch document touchend Sample.ev_end;
                       Dispatch document touchmove Sample.ev_move])
      = triggered w3.
Proof.
  assert (H := C1_exactly_one_stop_event_with_null_target
                 [1; 9]%nat 100 (Sample.page false)
                 [Attach; Dispatch document touchstart Sample.ev_start]
                 1%nat
                 {| timeout_event := at_node document Sample.ev_start;
                    timeout_container := 1%nat; timeout_delay := 100 |}
                 (Sample.point 10 10)
                 [Dispatch document touchstart Sample.ev_outside;
                  Dispatch document touchmove Sample.ev_move]
                 touchend Sample.ev_end (Sample.point 20 30)
                 [Dispatch document touchend Sample.ev_end;
                  Dispatch document touchmove Sample.ev_move]).
  destruct H as (_ & _ & _ & _ & Hstop & _).
  - vm_compute. reflexivity.
  - reflexivity.
  - vm_compute. reflexivity.
  - repeat constructor.
  - reflexivity.
  - reflexivity.
  - repeat constructor.
  - apply Hstop. vm_compute. reflexivity.
Defined.

(** A second finger goes down on container 9 while the drag begun on
    container 1 is under way: the stop event is triggered on container
    9. *)
Lemma C1_counterexample : ¬ stop_event_goes_to_the_container_of_the_gesture.
Proof.
  intros H.
  specialize (H [1; 9]%nat 100 (Sample.page false)
                [Attach; Dispatch document touchstart Sample.ev_start]
                1%nat
                {| timeout_event := at_node document Sample.ev_start;
                   timeout_container := 1%nat; timeout_delay := 100 |}
                (Sample.point 10 10)
                [Dispatch document touchstart Sample.ev_outside]
                touchend Sample.ev_end (Sample.point 20 30)).
  cbv zeta in H.
  assert (E : triggered_since
                (run (fire 1 (run (constructed [1; 9]%nat 100 (Sample.page false))
                                [Attach; Dispatch document touchstart Sample.ev_start]))
                   [Dispatch document touchstart Sample.ev_outside])
                (dispatchEvent document touchend Sample.ev_end
                   (run (fire 1 (run (constructed [1; 9]%nat 100 (Sample.page false))
                                   [Attach; Dispatch document touchstart Sample.ev_start]))
                      [Dispatch document touchstart Sample.ev_outside]))
              = [(Some 9%nat, dragStopEvent (Some 9%nat)
                                (at_node document Sample.ev_end)
                                (Sample.point 20 30))]).
  { vm_compute. reflexivity. }
  rewrite E in H. clear E.
  assert (H' : [(Some 9%nat, dragStopEvent (Some 9%nat)
                   (at_node document Sample.ev_end) (Sample.point 20 30))]
             = [(Some 1%nat, dragStopEvent (Some 1%nat)
                   (at_node document Sample.ev_end) (Sample.point 20 30))]).
  { apply H.
    - vm_compute. reflexivity.
    - reflexivity.
    - vm_compute. reflexivity.
    - repeat constructor.
    - reflexivity.
    - reflexivity.
    - vm_compute. reflexivity. }
  discriminate H'.
Qed.

(** X11: in every world reached from a constructed sensor, a drag under
    way can be ended: while [dragging] is true a container is recorded
    and the listeners for touch-end, touch-cancel and touch-move are on
    the document, so that a touch-end or touch-cancel carrying a touch
    point triggers the stop event on that container and turns [dragging]
    off. *)
Theorem X11_a_drag_under_way_can_always_be_ended
    cs delay h acts ty event touch :
  let w := run (constructed cs delay h) acts in
  let w' := dispatchEvent document ty event w in
  dragging (sensor w) = true →
  is_end ty = true →
  first_touch event = Some touch →
  (document, touchmove, cb_onTouchMove) ∈ listeners w ∧
  ∃ c, currentContainer (sensor w) = Some c ∧
       triggered_since w w' =
         [(Some c, dragStopEvent (Some c) (at_node document event) touch)] ∧
       dragging (sensor w') = false.
Proof.
  intros w w' Hd Hty Htouch.
  assert (Hok : listeners_ok w).
  { apply listeners_ok_run, listeners_ok_initial. }
  destruct (sound_run (constructed cs delay h) acts (sound_constructed cs delay h))
    as (Hready & _). fold w in Hready.
  destruct (Hready Hd) as ([c Hc] & Hend & Hcancel & Hmove).
  assert (Hin : (document, ty, cb_onTouchEnd) ∈ listeners w).
  { by destruct ty. }
  assert (E : w' = exec (onTouchEnd (at_node document event)) w)
    by (by apply dispatch_end_exec).
  unfold exec in E.
  rewrite (onTouchEnd_touch (at_node document event) document touch w Hd eq_refl Htouch) in E.
  cbn [snd] in E. clearbody w w'.
  split; [done|]. exists c. split_and!; [done| |by rewrite E].
  apply triggered_since_app. rewrite E. cbn. by rewrite Hc.
Qed.

Lemma X11_witness :
  let w := run (constructed [1%nat] 100 (Sample.page false))
             [Attach; Dispatch document touchstart Sample.ev_start; Fire 1;
              Dispatch document touchmove Sample.ev_move] in
  ∃ c, currentContainer (sensor w) = Some c ∧
       triggered_since w (dispatchEvent document touchcancel Sample.ev_end w) =
         [(Some c, dragStopEvent (Some c) (at_node document Sample.ev_end)
                     (Sample.point 20 30))] ∧
       dragging (sensor (dispatchEvent document touchcancel Sample.ev_end w)) = false.
Proof.
  apply (X11_a_drag_under_way_can_always_be_ended
           [1%nat] 100 (Sample.page false)
           [Attach; Dispatch document touchstart Sample.ev_start; Fire 1;
            Dispatch document touchmove Sample.ev_move]
           touchcancel Sample.ev_end (Sample.point 20 30)).
  - vm_compute. reflexivity.
  - reflexivity.
  - reflexivity.
Defined.

(** X12: the drag events a constructed sensor triggers, in whatever way
    the host drives it, come in order: every move event and every stop
    event follows a start event with no stop event in between, so a
    subscriber never sees a move or a stop outside an open drag, nor two
    stops for one start.  While the sensor is dragging, the drag is
    open. *)
Theorem X12_drag_events_come_in_order cs delay h acts :
  let w := run (constructed cs delay h) acts in
  ∃ p, trace_phase (triggered w) = Some p ∧
       (dragging (sensor w) = true → p = Open).
Proof.
  cbv zeta.
  by destruct (sound_run (constructed cs delay h) acts (sound_constructed cs delay h))
    as (_ & H & _).
Qed.

Lemma X12_witness :
  trace_phase (triggered (run (constructed [1%nat] 100 (Sample.page false))
     [Attach; Dispatch document touchstart Sample.ev_start; Fire 1;
      Dispatch document touchmove Sample.ev_move;
      Dispatch document touchend Sample.ev_end;
      Dispatch document touchend Sample.ev_end])) = Some Closed.
Proof.
  destruct (X12_drag_events_come_in_order [1%nat] 100 (Sample.page false)
     [Attach; Dispatch document touchstart Sample.ev_start; Fire 1;
      Dispatch document touchmove Sample.ev_move;
      Dispatch document touchend Sample.ev_end;
      Dispatch document touchend Sample.ev_end]) as (p & Hp & _).
  vm_compute in Hp. injection Hp as <-. vm_compute. reflexivity.
Defined.

(** X13: a constructed sensor never triggers a drag event on a null
    container: every drag event it records was triggered on an element,
    and names that element as its container. *)
Theorem X13_drag_events_are_triggered_on_their_container
    cs delay h acts c e :
  (c, e) ∈ triggered (run (constructed cs delay h) acts) →
  ∃ container, c = Some container ∧
    SensorEvent.container (SensorEvent.fields e) = Some container.
Proof.
  intros Hin.
  destruct (sound_run (constructed cs delay h) acts (sound_constructed cs delay h))
    as (_ & _ & Hon).
  rewrite Forall_forall in Hon. destruct (Hon _ Hin) as [[x Hx] Hc].
  cbn in Hx, Hc. exists x. by rewrite Hc.
Qed.

Lemma X13_witness :
  ∃ container, Some 1%nat = Some container ∧
    SensorEvent.container (SensorEvent.fields
      (dragMoveEvent (Sample.page false) (Some 1%nat)
         (at_node document Sample.ev_move) (Sample.point 20 30))) = Some container.
Proof.
  apply (X13_drag_events_are_triggered_on_their_container
           [1%nat] 100 (Sample.page false)
           [Attach; Dispatch document touchstart Sample.ev_start; Fire 1;
            Dispatch document touchmove Sample.ev_move]).
  vm_compute. right. left.
Defined.

(** Timer handles stay fresh in every step, so they are in every world
    reached from a constructed sensor. *)
Lemma handles_fresh_call cb n event w :
  handles_fresh w → handles_fresh (exec (call cb (at_node n event)) w).
Proof.
  unfold handles_fresh. intros Hw.
  call_cases cb n event w; try done.
  - apply map_Forall_insert_2; [lia|].
    eapply map_Forall_impl; [exact Hw|]. cbn. lia.
  - destruct (tapTimeout (sensor w)); [by apply map_Forall_delete|done].
  - destruct (tapTimeout (sensor w)); [by apply map_Forall_delete|done].
  - destruct (tapTimeout (sensor w)); [by apply map_Forall_delete|done].
Qed.

Lemma handles_fresh_step w a : handles_fresh w → handles_fresh (step w a).
Proof.
  intros Hw. destruct a as [n ty event|id|h| |]; cbn [step]; try exact Hw.
  - apply dispatchEvent_inv; [|done]. intros cb w'. apply handles_fresh_call.
  - destruct (fire_cases id w)
      as [[_ ->]|[(t & _ & _ & ->)|(t & touch & Ht & Htouch)]]; [done| |].
    + by apply map_Forall_delete.
    + rewrite (fire_touch _ _ _ _ Ht Htouch). by apply map_Forall_delete.
Qed.

Lemma handles_fresh_run cs delay h acts :
  handles_fresh (run (constructed cs delay h) acts).
Proof.
  apply (run_inv (λ _, True)).
  - intros. by apply handles_fresh_step.
  - by apply Forall_true.
  - apply map_Forall_empty.
Qed.

(** ** The context-menu suppressor *)

Lemma drag_listeners_call cb n event w :
  drag_listeners_on_document w →
  drag_listeners_on_document (exec (call cb (at_node n event)) w).
Proof.
  unfold drag_listeners_on_document. intros Hw m ty.
  call_cases cb n event w; try apply Hw;
    repeat case_match; set_unfold; naive_solver.
Qed.

Lemma drag_listeners_step w a :
  drag_listeners_on_document w → drag_listeners_on_document (step w a).
Proof.
  intros Hw. destruct a as [n ty event|id|h| |]; cbn [step]; try exact Hw.
  - apply dispatchEvent_inv; [|done]. intros cb w'. apply drag_listeners_call.
  - destruct (fire_cases id w)
      as [[_ ->]|[(t & _ & _ & ->)|(t & touch & Ht & Htouch)]];
      [exact Hw|exact Hw|].
    rewrite (fire_touch _ _ _ _ Ht Htouch). intros m ty. cbn.
    destruct (cancels _ _ _); [apply Hw|]. specialize (Hw m ty).
    set_unfold. naive_solver.
  - intros m ty. specialize (Hw m ty).
    unfold exec, attach, addEventListener. cbn. set_unfold. naive_solver.
  - intros m ty. specialize (Hw m ty).
    unfold exec, detach, removeEventListener. cbn. set_unfold. naive_solver.
Qed.

Lemma suppressor_step c w a :
  listeners_ok w → drag_listeners_on_document w →
  (Elem c, contextmenu, cb_onContextMenu) ∈ listeners w →
  (Elem c, contextmenu, cb_onContextMenu) ∈ listeners (step w a).
Proof.
  intros Hok Hdoc Hin. destruct a as [n ty event|id|h| |]; cbn [step].
  - rewrite dispatchEvent_ok by done.
    destruct (invoke_cases n ty event w (handler_for ty)) as [->|[Hreg ->]];
      [done|].
    assert (Hn : handler_for ty = cb_onTouchEnd → n = document).
    { intros E. rewrite E in Hreg. by apply (Hdoc n ty). }
    remember (handler_for ty) as cb eqn:Hcb. clear Hcb Hreg.
    call_cases cb n event w; try done.
    + destruct (closest (host w) _ (by_predicate _)); set_solver.
    + rewrite (Hn eq_refl).
      destruct (currentScrollableParent (sensor w)); set_solver.
    + rewrite (Hn eq_refl).
      destruct (currentScrollableParent (sensor w)); set_solver.
    + by destruct (tapTimeout (sensor w)).
  - destruct (fire_cases id w)
      as [[_ ->]|[(t & _ & _ & ->)|(t & touch & Ht & Htouch)]]; [done|done|].
    rewrite (fire_touch _ _ _ _ Ht Htouch). cbn.
    destruct (cancels _ _ _); set_solver.
  - done.
  - unfold exec, attach, addEventListener. cbn. set_solver.
  - unfold exec, detach, removeEventListener. cbn. set_solver.
Qed.

(** X14: a constructed sensor never takes the context-menu suppressor
    off an element again.  Once a touch-start has registered it on a
    container it stays there through everything that follows, the end of
    the gesture and [detach] included, and every context-menu event that
    reaches the container has its default action suppressed. *)
Theorem X14_context_menu_suppressor_is_never_removed
    cs delay h acts acts' c event :
  let w := run (constructed cs delay h) acts in
  let w' := run w acts' in
  (Elem c, contextmenu, cb_onContextMenu) ∈ listeners w →
  (Elem c, contextmenu, cb_onContextMenu) ∈ listeners w' ∧
  ev_id event ∈ defaultPrevented (dispatchEvent (Elem c) contextmenu event w').
Proof.
  intros w w' Hin.
  assert (Hinv : listeners_ok w ∧ drag_listeners_on_document w).
  { split; [apply listeners_ok_run, listeners_ok_initial|].
    apply (run_inv (λ _, True)); [|by apply Forall_true|].
    - intros. by apply drag_listeners_step.
    - intros m ty. cbn. set_solver. }
  clearbody w.
  assert (H' : listeners_ok w' ∧ drag_listeners_on_document w' ∧
               (Elem c, contextmenu, cb_onContextMenu) ∈ listeners w').
  { subst w'. apply (run_inv (λ _, True)
      (λ w0, listeners_ok w0 ∧ drag_listeners_on_document w0 ∧
             (Elem c, contextmenu, cb_onContextMenu) ∈ listeners w0));
      [|by apply Forall_true|destruct Hinv; split_and!; assumption].
    intros w0 a _ (Hok0 & Hdoc0 & Hin0). split_and!.
    - by apply listeners_ok_step.
    - by apply drag_listeners_step.
    - by apply suppressor_step. }
  clearbody w'. destruct H' as (Hok' & _ & Hin'). split; [done|].
  rewrite dispatchEvent_registered by done.
  unfold exec, call, onContextMenu, preventDefault. cbn. set_solver.
Qed.

Lemma X14_witness :
  let w := run (constructed [1%nat] 100 (Sample.page false))
             [Attach; Dispatch document touchstart Sample.ev_start] in
  let w' := run w [Fire 1; Dispatch document touchend Sample.ev_end; Detach] in
  (Elem 1%nat, contextmenu, cb_onContextMenu) ∈ listeners w' ∧
  ev_id Sample.ev_scroll
    ∈ defaultPrevented (dispatchEvent (Elem 1%nat) contextmenu Sample.ev_scroll w').
Proof.
  refine (X14_context_menu_suppressor_is_never_removed
           [1%nat] 100 (Sample.page false)
           [Attach; Dispatch document touchstart Sample.ev_start]
           [Fire 1; Dispatch document touchend Sample.ev_end; Detach]
           1%nat Sample.ev_scroll _).
  compute_done.
Defined.

(** ** Moves, and the gesture as a whole *)

Lemma dispatch_move_exec event w :
  listeners_ok w →
  (document, touchmove, cb_onTouchMove) ∈ listeners w →
  dispatchEvent document touchmove event w
    = exec (onTouchMove (at_node document event)) w.
Proof. intros Hok Hin. by rewrite dispatchEvent_registered. Qed.

Lemma dispatch_move event touch w :
  listeners_ok w →
  (document, touchmove, cb_onTouchMove) ∈ listeners w →
  dragging (sensor w) = true →
  first_touch event = Some touch →
  dispatchEvent document touchmove event w =
  {| sensor := sensor w; host := host w; listeners := listeners w;
     timers := timers w; next_timer := next_timer w;
     defaultPrevented := defaultPrevented w ∪ {[ ev_id event ]};
     propagationStopped := propagationStopped w ∪ {[ ev_id event ]};
     triggered :=
       triggered w ++
       [(currentContainer (sensor w),
         dragMoveEvent (host w) (currentContainer (sensor w))
           (at_node document event) touch)] |}.
Proof.
  intros Hok Hin Hd Htouch. rewrite dispatch_move_exec by done. unfold exec.
  by rewrite (onTouchMove_touch (at_node document event) touch w Hd Htouch).
Qed.

(** X15: a touch-move carrying a touch point, delivered to the document
    while dragging, triggers exactly one drag event: a move event on the
    recorded container.  It sets the event's two flags and changes nothing
    else: the sensor's fields, the listeners and the timers are as
    before. *)
Theorem X15_touch_move_while_dragging_triggers_one_move_event w event touch :
  listeners_ok w →
  (document, touchmove, cb_onTouchMove) ∈ listeners w →
  dragging (sensor w) = true →
  first_touch event = Some touch →
  let w' := dispatchEvent document touchmove event w in
  triggered_since w w' =
    [(currentContainer (sensor w),
      dragMoveEvent (host w) (currentContainer (sensor w))
        (at_node document event) touch)] ∧
  sensor w' = sensor w ∧ listeners w' = listeners w ∧ timers w' = timers w ∧
  host w' = host w ∧ next_timer w' = next_timer w ∧
  defaultPrevented w' = defaultPrevented w ∪ {[ ev_id event ]} ∧
  propagationStopped w' = propagationStopped w ∪ {[ ev_id event ]}.
Proof.
  intros Hok Hin Hd Htouch w'. subst w'.
  rewrite (dispatch_move event touch w) by done. cbn. split_and!; try done.
  by apply triggered_since_app.
Qed.

Lemma X15_witness :
  triggered_since (Sample.held false)
    (dispatchEvent document touchmove Sample.ev_move (Sample.held false)) =
    [(currentContainer (sensor (Sample.held false)),
      dragMoveEvent (host (Sample.held false))
        (currentContainer (sensor (Sample.held false)))
        (at_node document Sample.ev_move) (Sample.point 20 30))].
Proof.
  apply (X15_touch_move_while_dragging_triggers_one_move_event
           (Sample.held false) Sample.ev_move (Sample.point 20 30)).
  - compute_done.
  - compute_done.
  - vm_compute. reflexivity.
  - reflexivity.
Defined.

(** X16: once the long press has matured, a scroll no longer matters:
    when the timer the sensor's handle names is not pending (it has fired),
    a scroll event delivered to any node leaves the world exactly as it
    is, so a drag under way is not disturbed by scrolling. *)
Theorem X16_scroll_after_the_long_press_changes_nothing w n event :
  listeners_ok w →
  (∀ id, tapTimeout (sensor w) = Some id → timers w !! id = None) →
  dispatchEvent n scroll event w = w.
Proof.
  intros Hok Hfired. rewrite dispatchEvent_ok by done. cbn [handler_for].
  destruct (invoke_cases n scroll event w cb_onScroll) as [->|[_ ->]]; [done|].
  unfold exec, call. rewrite onScroll_eq. cbn.
  destruct (tapTimeout (sensor w)) as [id|] eqn:E; [|done].
  apply world_eq; cbn; try done. apply delete_id. by apply Hfired.
Qed.

Lemma X16_witness :
  dispatchEvent (Elem 3%nat) scroll Sample.ev_scroll (Sample.held false)
    = Sample.held false.
Proof.
  apply (X16_scroll_after_the_long_press_changes_nothing (Sample.held false)).
  - compute_done.
  - intros id Hid. vm_compute in Hid. injection Hid as <-. vm_compute. reflexivity.
Defined.

Lemma run_moves c (moves : list (Event * Touch)) :
  Forall (λ m, first_touch m.1 = Some m.2) moves → ∀ w,
  listeners_ok w →
  (document, touchmove, cb_onTouchMove) ∈ listeners w →
  dragging (sensor w) = true →
  currentContainer (sensor w) = Some c →
  let w' := run w (map (λ m, Dispatch document touchmove m.1) moves) in
  sensor w' = sensor w ∧ listeners w' = listeners w ∧ host w' = host w ∧
  triggered w' =
    triggered w ++
    map (λ m, (Some c, dragMoveEvent (host w) (Some c) (at_node document m.1) m.2))
        moves.
Proof.
  induction 1 as [|[event touch] moves Hm _ IH]; intros w Hok Hin Hd Hc.
  { cbn. by rewrite app_nil_r. }
  cbn [map]. cbv zeta. rewrite run_cons. cbn [step fst snd] in *.
  pose proof (listeners_ok_dispatchEvent document touchmove event w Hok) as Hok'.
  rewrite (dispatch_move event touch w) in * by done.
  destruct (IH _ Hok') as (Hs' & Hl' & Hh' & Ht'); [done..|].
  cbn in Hs', Hl', Hh', Ht'. split_and!; [done..|].
  rewrite Ht', Hc. cbn. by rewrite <- app_assoc.
Qed.

(** X17: a whole gesture.  A touch-start on a container, delivered to an
    attached sensor, then the long-press timer firing with no listener
    cancelling, then any number of touch-moves, then a touch-end or
    touch-cancel (all with touch points), triggers exactly these drag
    events, in this order and all on the container: the start event, one
    move event per touch-move, and the stop event.  At the end the sensor
    is not dragging and records no container. *)
Theorem X17_a_whole_gesture_triggers_start_moves_stop
    w event c touch moves ty event' touch' :
  listeners_ok w →
  (document, touchstart, cb_onTouchStart) ∈ listeners w →
  closest (host w) (target event) (by_list (containers (sensor w))) = Some c →
  first_touch event = Some touch →
  cancels (host w) (Some c) (dragStartEvent (at_node document event) c touch) = false →
  Forall (λ m, first_touch m.1 = Some m.2) moves →
  is_end ty = true →
  first_touch event' = Some touch' →
  let w' := run w ([Dispatch document touchstart event; Fire (next_timer w)]
                   ++ map (λ m, Dispatch document touchmove m.1) moves
                   ++ [Dispatch document ty event']) in
  triggered_since w w' =
    (Some c, dragStartEvent (at_node document event) c touch)
    :: map (λ m, (Some c, dragMoveEvent (host w) (Some c) (at_node document m.1) m.2))
           moves
    ++ [(Some c, dragStopEvent (Some c) (at_node document event') touch')] ∧
  dragging (sensor w') = false ∧
  currentContainer (sensor w') = None.
Proof.
  intros Hok Hin Hc Htouch Hcancel Hmoves Hty Htouch'. cbv zeta.
  rewrite !run_app. cbn [run foldl step].
  destruct (touchstart_tracked event c w Hok Hin Hc) as (Htm1 & Htg1 & _ & _).
  assert (Hok1 : listeners_ok (dispatchEvent document touchstart event w))
    by (by apply listeners_ok_dispatchEvent).
  assert (Hh1 : host (dispatchEvent document touchstart event w) = host w)
    by apply host_dispatchEvent.
  generalize dependent (dispatchEvent document touchstart event w). intros w1.
  intros Htm1 Htg1 Hok1 Hh1.
  assert (Ht : timers w1 !! next_timer w =
               Some {| timeout_event := at_node document event;
                       timeout_container := c;
                       timeout_delay := options_delay (sensor w) |}).
  { rewrite Htm1. apply lookup_insert_eq. }
  pose proof (fire_touch (next_timer w) _ touch w1 Ht Htouch) as F.
  cbv zeta in F. cbn [timeout_event timeout_container] in F.
  rewrite Hh1, Hcancel in F. cbn [negb] in F.
  assert (Hok2 : listeners_ok (fire (next_timer w) w1)) by (by apply listeners_ok_fire).
  generalize dependent (fire (next_timer w) w1). intros w2 F Hok2.
  destruct (run_moves c moves Hmoves w2) as (Hs3 & Hl3 & Hh3 & Ht3);
    [done|rewrite F; cbn; set_solver|by rewrite F..|].
  assert (Hok3 : listeners_ok (run w2 (map (λ m, Dispatch document touchmove m.1) moves)))
    by (by apply listeners_ok_run).
  fold (run w2 (map (λ m, Dispatch document touchmove m.1) moves)).
  generalize dependent (run w2 (map (λ m, Dispatch document touchmove m.1) moves)).
  intros w3 Hs3 Hl3 Hh3 Ht3 Hok3.
  assert (Hd3 : dragging (sensor w3) = true) by (by rewrite Hs3, F).
  assert (Hc3 : currentContainer (sensor w3) = Some c) by (by rewrite Hs3, F).
  assert (Hin3 : (document, ty, cb_onTouchEnd) ∈ listeners w3).
  { rewrite Hl3, F. cbn. destruct ty; try discriminate Hty; set_solver. }
  assert (E : dispatchEvent document ty event' w3
              = exec (onTouchEnd (at_node document event')) w3)
    by (by apply dispatch_end_exec).
  unfold exec in E.
  rewrite (onTouchEnd_touch (at_node document event') document touch' w3 Hd3 eq_refl Htouch') in E.
  cbn [snd] in E. rewrite E. cbn. split_and!; [|done..].
  apply triggered_since_app. cbn. rewrite Ht3, Hc3, F. cbn.
  rewrite Htg1. rewrite <- !app_assoc. done.
Qed.

Lemma X17_witness :
  let w' := run (Sample.attached false)
              ([Dispatch document touchstart Sample.ev_start;
                Fire (next_timer (Sample.attached false))]
               ++ map (λ m : Event * Touch, Dispatch document touchmove m.1)
                      [(Sample.ev_move, Sample.point 20 30)]
               ++ [Dispatch document touchend Sample.ev_end]) in
  length (triggered_since (Sample.attached false) w') = 3%nat ∧
  dragging (sensor w') = false.
Proof.
  assert (H := X17_a_whole_gesture_triggers_start_moves_stop
                 (Sample.attached false) Sample.ev_start 1%nat (Sample.point 10 10)
                 [(Sample.ev_move, Sample.point 20 30)]
                 touchend Sample.ev_end (Sample.point 20 30)).
  destruct H as (Ht & Hd & _).
  - compute_done.
  - compute_done.
  - vm_compute. reflexivity.
  - reflexivity.
  - reflexivity.
  - repeat constructor.
  - reflexivity.
  - reflexivity.
  - split; [|exact Hd]. cbv zeta in Ht. cbv zeta. rewrite Ht. reflexivity.
Defined.
